(** * RefractAI-Multimodal: the training driver [train.py]

  A shallow embedding of the training orchestration of [train.py]:
  the bounded loss windows, the cadence tests on the global step
  counter, the timestep override, the latent cache build, the
  preparation of the model input, the epoch and batch loops, and the
  patch codec and checkpoint manager the driver imports from [data].

  Python integers are [Z] (unbounded, [%] as [Z.modulo] and [//] as
  [Z.div], whose sign conventions are Python's); list lengths and loop
  indices that are counted by [enumerate]/[range] are [nat].  Python
  floats, on which [train.py] does arithmetic (the loss values taken
  with [.item()] and their averages), are IEEE 754 binary64 numbers,
  the kernel's primitive [float].  Scalars that [train.py] only passes
  on (the tensor [loss], the timesteps) are named by the rational they
  stand for. *)

From Stdlib Require Import ZArith QArith Lia Ascii.
From Stdlib Require PrimFloat SpecFloat FloatOps Uint63.
From stdpp Require Import base list strings pretty gmap fin_maps.

Local Open Scope Z_scope.

(** ** Exceptions and the error monad *)

(** Where a [ZeroDivisionError] is raised in [train]. *)
Inductive site : Type :=
| CadenceModulus   (* step_counter % N_...            *)
| WindowLength.    (* sum(window) / len(window)       *)

Inductive error : Type :=
| ZeroDivisionError (s : site)
| KeyError (k : string)
| ShapeError
| CheckpointNotFoundError
| RuntimeError
| IndexError.

Inductive result (A : Type) : Type :=
| Ok (a : A)
| Err (e : error).
Arguments Ok {A} a.
Arguments Err {A} e.

Definition rbind {A B} (r : result A) (k : A -> result B) : result B :=
match r with
| Ok a => k a
| Err e => Err e
end.

Declare Scope result_scope.
Delimit Scope result_scope with result.
Notation "'let*' x ':=' r 'in' k" := (rbind r (fun x => k))
(at level 10, x pattern, r at level 100, k at level 200) : result_scope.
Local Open Scope result_scope.

Definition is_Ok {A} (r : result A) : Prop := exists a, r = Ok a.

(** ** LossTracker: the two moving-average windows (train.py 162-163, 202-212) *)

Module LossTracker.

(** A Python float. *)
Abbreviation float := PrimFloat.float.

(** [N_loss_window = 100] (train.py line 56). *)
Definition N_loss_window : nat := 100.

(** [window.append(v)] followed by
    [if len(window) > N_loss_window: window.pop(0)]. *)
Definition record {A} (window : list A) (v : A) : list A :=
  let window := window ++ [v] in
  if (N_loss_window <? length window)%nat then tail window else window.

(** Python's [sum]: a left fold starting from the integer [0], which the
    first addition turns into the float [0.0]. *)
Definition sum (window : list float) : float :=
  fold_left PrimFloat.add window PrimFloat.zero.

(** The conversion of the integer [len(window)] to a float that [/]
    performs. *)
Definition float_of_len (n : nat) : float :=
  PrimFloat.of_uint63 (Uint63.of_Z (Z.of_nat n)).

(** [sum(window) / len(window)] in binary64; on an empty window the
    division raises (the spec calls this EmptyWindowError). *)
Definition average (window : list float) : result float :=
  if (length window =? 0)%nat then Err (ZeroDivisionError WindowLength)
  else Ok (PrimFloat.div (sum window) (float_of_len (length window))).

(** Recording [v1..vk] in order, starting from the empty window
    (train.py lines 162-163). *)
Definition record_all {A} (vs : list A) : list A := fold_left record vs [].

(** The most recent [n] elements of a history. *)
Definition lastn {A} (n : nat) (l : list A) : list A :=
  drop (length l - n) l.





End LossTracker.

(** ** PatchCodec: [patchify] / [unpatchify] (imported from [data], train.py line 3) *)

Module PatchCodec.

(** A dense tensor: its shape and its elements in row-major order. *)
Record Tensor (A : Type) : Type := mkTensor {
  shape : list nat;
  data : list A
}.
Arguments mkTensor {A} shape data.
Arguments shape {A} t.
Arguments data {A} t.

Definition numel (dims : list nat) : nat := foldr Nat.mul 1%nat dims.

(** Row-major offset of a multi-index, and the multi-index of an offset. *)
Fixpoint ravel (dims idx : list nat) : nat :=
  match dims, idx with
  | _ :: dims, i :: idx => (i * numel dims + ravel dims idx)%nat
  | _, _ => 0%nat
  end.

Fixpoint unravel (dims : list nat) (k : nat) : list nat :=
  match dims with
  | [] => []
  | _ :: dims => (k / numel dims)%nat :: unravel dims (k mod numel dims)%nat
  end.

(** Build a tensor's elements by reading [data] at the given offsets;
    an offset out of range is a shape error. *)
Definition gather {A} (data : list A) (offsets : list nat) : result (list A) :=
  match mapM (fun k => data !! k) offsets with
  | Some out => Ok out
  | None => Err ShapeError
  end.

(** Modelled from the spec: the patch layout of [patchify] (section 4.1).
    Offset in [x : [B,C,H,W]] of element [k] of the patch sequence
    [[B, (H/p)*(W/p), C*p*p]]: row [l] is the patch at grid position
    [(l / (W/p), l mod (W/p))]; inside a row the channel is the slowest
    index (channel-major), then the row and the column inside the patch. *)
Definition patch_source (B C H W p : nat) (k : nat) : nat :=
  match unravel [B; (H / p) * (W / p); C * p * p]%nat k with
  | [b; l; d] =>
      let hp := (l / (W / p))%nat in
      let wp := (l mod (W / p))%nat in
      let c := (d / (p * p))%nat in
      let i := ((d mod (p * p)) / p)%nat in
      let j := (d mod p)%nat in
      ravel [B; C; H; W] [b; c; hp * p + i; wp * p + j]%nat
  | _ => 0%nat
  end.

(** Modelled from the spec: the inverse layout, used by [unpatchify].
    Offset in the patch sequence of element [m] of the image [[B,C,H,W]]. *)
Definition image_source (B C H W p : nat) (m : nat) : nat :=
  match unravel [B; C; H; W] m with
  | [b; c; h; w] =>
      let l := ((h / p) * (W / p) + w / p)%nat in
      let d := (c * (p * p) + (h mod p) * p + w mod p)%nat in
      ravel [B; (H / p) * (W / p); C * p * p]%nat [b; l; d]
  | _ => 0%nat
  end.

(** Modelled from the spec: [patchify] of [data] (not in the sources at
    hand).  Section 4.1: the input is a 4D tensor [[B, C, H, W]] with H
    and W divisible by [patch_size]; the output is
    [[B, (H/p)*(W/p), C*p*p]], one flattened non-overlapping patch per
    row in channel-major order; non-divisible dimensions are a
    ShapeError. *)
Definition patchify {A} (x : Tensor A) (patch_size : nat) : result (Tensor A) :=
  match shape x with
  | [B; C; H; W] =>
      if (0 <? patch_size)%nat && (H mod patch_size =? 0)%nat
         && (W mod patch_size =? 0)%nat
         && (length (data x) =? numel [B; C; H; W])%nat
      then
        let out := [B; (H / patch_size) * (W / patch_size);
                    C * patch_size * patch_size]%nat in
        let* d := gather (data x)
                    (patch_source B C H W patch_size <$> seq 0 (numel out)) in
        Ok (mkTensor out d)
      else Err ShapeError
  | _ => Err ShapeError
  end.

(** Modelled from the spec: [unpatchify] of [data] (not in the sources
    at hand).  Section 4.1: the exact inverse of [patchify] given the
    shape parameters; a ShapeError if H or W is not divisible by
    [patch_size] or the flattened width is not [C*p*p]. *)
Definition unpatchify {A} (x : Tensor A) (patch_size B C H W : nat)
  : result (Tensor A) :=
  match shape x with
  | [B'; L; D] =>
      if (0 <? patch_size)%nat && (H mod patch_size =? 0)%nat
         && (W mod patch_size =? 0)%nat
         && (D =? C * patch_size * patch_size)%nat
         && (B' =? B)%nat
         && (L =? (H / patch_size) * (W / patch_size))%nat
         && (length (data x) =? numel [B'; L; D])%nat
      then
        let* d := gather (data x)
                    (image_source B C H W patch_size <$> seq 0 (numel [B; C; H; W])) in
        Ok (mkTensor [B; C; H; W] d)
      else Err ShapeError
  | _ => Err ShapeError
  end.

(** A [[1,4,32,32]] latent whose elements are all different. *)
Definition sample_latent : Tensor nat := mkTensor [1; 4; 32; 32]%nat (seq 0 4096).

End PatchCodec.

(** ** The tensor and dictionary operations of lines 176-186 *)

Module Torch.
Import PatchCodec.

(** [d[key]]: KeyError when the key is absent. *)
Definition getitem {V} (d : gmap string V) (key : string) : result V :=
  match d !! key with
  | Some v => Ok v
  | None => Err (KeyError key)
  end.

(** [x.shape[i]]: IndexError when [x] has no dimension [i]. *)
Definition shape_at {A} (x : Tensor A) (i : nat) : result nat :=
  match shape x !! i with
  | Some d => Ok d
  | None => Err IndexError
  end.

(** [x.reshape(dims)].  A dimension below -1 is invalid; at most one
    dimension may be -1, and it is inferred from the number of elements
    when the product of the others is not zero and divides it; without a
    -1 the product of the dimensions must be the number of elements.
    Anything else is a RuntimeError.  The elements keep their order. *)
Definition reshape {A} (x : Tensor A) (dims : list Z) : result (Tensor A) :=
  let n := Z.of_nat (numel (shape x)) in
  let known := List.filter (fun d => negb (d =? -1)) dims in
  let p := foldr Z.mul 1 known in
  if existsb (fun d => d <? -1) dims then Err RuntimeError
  else
    match (length dims - length known)%nat with
    | O =>
        if p =? n then Ok (mkTensor (Z.to_nat <$> dims) (data x))
        else Err RuntimeError
    | S O =>
        if (p =? 0) || negb (n mod p =? 0) then Err RuntimeError
        else Ok (mkTensor
                   ((fun d => Z.to_nat (if d =? -1 then n / p else d)) <$> dims)
                   (data x))
    | _ => Err RuntimeError
    end.

(** [x[i]] for a non-negative [i]: the [i]-th slice along the first
    dimension; IndexError when there is none. *)
Definition row {A} (x : Tensor A) (i : nat) : result (Tensor A) :=
  match shape x with
  | [] => Err IndexError
  | d :: rest =>
      if (i <? d)%nat
      then Ok (mkTensor rest (take (numel rest) (drop (i * numel rest) (data x))))
      else Err IndexError
  end.

(** A list comprehension whose body may raise. *)
Fixpoint for_each {A B} (f : A -> result B) (l : list A) : result (list B) :=
  match l with
  | [] => Ok []
  | a :: l =>
      let* b := f a in
      let* bs := for_each f l in
      Ok (b :: bs)
  end.

End Torch.

(** ** LatentCache: the cache build of train.py lines 100-114 *)

Module LatentCache.
Section Build.

(** The tensors held in a batch dictionary, and the external encoder
    [vae_encode_batch] (its other arguments are fixed for a run). *)
Variable Value : Type.
Variable vae_encode_batch : Value -> Value.

(** A batch is a Python dict from field names to tensors; a directory
    maps file names to the saved batch. *)
Abbreviation BatchDict := (gmap string Value).
Abbreviation Directory := (gmap string (gmap string Value)).

(** The file system as the build sees it: [cache_dir] if it exists, and
    the number of encoder invocations made so far. *)
Record CacheState : Type := mkCacheState {
  cache_dir : option Directory;
  encodes : nat
}.

(** [f'batch_{batch_size}_{i}.pt'] (line 111). *)
Definition cache_file (batch_size : Z) (i : nat) : string :=
  "batch_" +:+ pretty batch_size +:+ "_" +:+ pretty i +:+ ".pt".

(** [os.makedirs(cache_dir, exist_ok=True)] (line 102): an absent
    directory is created empty, an existing one is left alone. *)
Definition makedirs (d : option Directory) : option Directory :=
  Some (default ∅ d).

(** [os.path.exists(cache_dir)]. *)
Definition path_exists (d : option Directory) : bool :=
  match d with Some _ => true | None => false end.

(** [os.listdir(cache_dir)]: the names of the files in the directory. *)
Definition listdir (d : option Directory) : list string :=
  (map_to_list (default ∅ d)).*1.

(** Lines 108-109: encode, then drop the raw pixels. *)
Definition encode_batch (batch : BatchDict) : result BatchDict :=
  match batch !! "pixel_values" with
  | None => Err (KeyError "pixel_values")
  | Some pixel_values =>
      let batch := <["image_latents" := vae_encode_batch pixel_values]> batch in
      Ok (delete "pixel_values" batch)
  end.

(** The body of the loop of lines 107-112, from index [i] on; returns
    the directory and the number of encoder calls made. *)
Fixpoint cache_batches (batch_size : Z) (i : nat) (batches : list BatchDict)
    (dir : Directory) (n : nat) : result (Directory * nat) :=
  match batches with
  | [] => Ok (dir, n)
  | batch :: batches =>
      let* batch := encode_batch batch in
      cache_batches batch_size (S i) batches
        (<[cache_file batch_size i := batch]> dir) (S n)
  end.

(** Lines 102-114.  [force] is [args.cache]; [temp_dataloader] is the
    dataset in batches of [batch_size], in order. *)
Definition build (force : bool) (batch_size : Z)
    (temp_dataloader : list BatchDict) (st : CacheState) : result CacheState :=
  let fs := makedirs (cache_dir st) in
  if force || negb (path_exists fs) || (length (listdir fs) =? 0)%nat then
    let* r := cache_batches batch_size 0 temp_dataloader (default ∅ fs) (encodes st) in
    Ok (mkCacheState (Some r.1) r.2)
  else
    Ok (mkCacheState fs (encodes st)).

(** The shard set is complete for [batch_size] when every batch index
    of the dataset has its file. *)
Definition complete (batch_size : Z) (nbatches : nat) (dir : Directory) : Prop :=
  forall i, (i < nbatches)%nat -> is_Some (dir !! cache_file batch_size i).

End Build.

(** A two-batch dataset over natural-number payloads, with a doubling
    encoder, and a cache directory holding only the first shard. *)
Definition demo_encode (v : nat) : nat := (2 * v)%nat.
Definition demo_batch (k : nat) : gmap string nat :=
  <["input_ids" := k]> (<["pixel_values" := (10 + k)%nat]> ∅).
Definition demo_loader : list (gmap string nat) := [demo_batch 0; demo_batch 1].
Definition demo_shard (k : nat) : gmap string nat :=
  <["input_ids" := k]> (<["image_latents" := (2 * (10 + k))%nat]> ∅).
Definition partial_dir : gmap string (gmap string nat) :=
  <[cache_file 4 0 := demo_shard 0]> ∅.
Definition partial_cache : CacheState nat := mkCacheState nat (Some partial_dir) 0.

End LatentCache.
(** ** CheckpointManager: [save_checkpoint] / [resume_checkpoint]
    (imported from [data], train.py line 3) *)

Module CheckpointManager.
Section Manager.

Variables Model Optimizer Scheduler : Type.

(** The checkpoint record of section 6 of the spec:
    model parameters, optimizer state, scheduler state, epoch, step and
    the last loss. *)
Record Checkpoint : Type := mkCheckpoint {
  ck_model : Model;
  ck_optimizer : Optimizer;
  ck_scheduler : Scheduler;
  ck_loss : Q;
  ck_epoch : nat;
  ck_step : Z
}.

(** Durable storage: the checkpoints written so far, most recent first. *)
Definition Store : Type := list Checkpoint.

(** Modelled from the spec: [save_checkpoint] of [data] (not in the
    sources at hand).  Section 4.6: "serializes TrainingState plus the
    last loss value to durable storage as a single unit". *)
Definition save_checkpoint (model : Model) (optimizer : Optimizer)
    (scheduler : Scheduler) (loss : Q) (epoch : nat) (step_counter : Z)
    (store : Store) : Store :=
  mkCheckpoint model optimizer scheduler loss epoch step_counter :: store.

(** Modelled from the spec: [resume_checkpoint] of [data] (not in the
    sources at hand).  Section 4.6: "reads the most recent checkpoint and
    restores model parameters, optimizer state, scheduler state, epoch,
    and step counters exactly"; "fails with CheckpointNotFoundError if
    resume is requested and no checkpoint exists". *)
Definition resume_checkpoint (model : Model) (optimizer : Optimizer)
    (scheduler : Scheduler) (store : Store)
  : result (Model * Optimizer * Scheduler * nat * Z) :=
  match store with
  | [] => Err CheckpointNotFoundError
  | ck :: _ =>
      Ok (ck_model ck, ck_optimizer ck, ck_scheduler ck, ck_epoch ck, ck_step ck)
  end.

End Manager.
End CheckpointManager.

(** ** TrainingLoop: the epoch and batch loops of train.py lines 130-237 *)

Module TrainingLoop.
Import LossTracker PatchCodec Torch.

(** The three cadences, [args.debug_steps], [args.inference_steps] and
    [args.save_steps] (lines 52-54). *)
Record Config : Type := mkConfig {
  N_debug : Z;
  N_inference : Z;
  N_save : Z
}.

(** The argparse defaults (lines 29-31). *)
Definition default_config : Config := mkConfig 20 200 200.

(** [num_epochs = 10] (line 55). *)
Definition num_epochs : nat := 10.

(** Python's [a % b] on integers. *)
Definition py_mod (a b : Z) : result Z :=
  if b =? 0 then Err (ZeroDivisionError CadenceModulus) else Ok (a mod b).

(** [step_counter % N == 0]. *)
Definition at_cadence (step_counter N : Z) : result bool :=
  let* r := py_mod step_counter N in Ok (r =? 0).

(** Line 188: [step_counter % N_inference == 0 or step_counter % N_debug == 0],
    with Python's short-circuit [or]. *)
Definition override (cfg : Config) (step_counter : Z) : result bool :=
  let* at_inference := at_cadence step_counter (N_inference cfg) in
  if at_inference : bool then Ok true else at_cadence step_counter (N_debug cfg).

(** [timestep = 0.7] (line 189). *)
Definition timestep : Q := 7 # 10.

(** The steps among [steps] at which the timesteps are overridden. *)
Definition overridden_steps (cfg : Config) (steps : list Z) : list Z :=
  List.filter
    (fun s => match override cfg s with Ok true => true | _ => false end)
    steps.

(** [args.cache_batch_size], [args.image_size] and [args.patch_size]
    (lines 46, 48, 57). *)
Record Sizes : Type := mkSizes {
  cache_batch_size : Z;
  image_size : Z;
  patch_size : Z
}.

(** [enumerate(dataloader, 1)]. *)
Definition enumerate1 {Batch} (dataloader : list Batch) : list (nat * Batch) :=
  zip (seq 1 (length dataloader)) dataloader.

(** The iterations of the nested loops of lines 168 and 173, in order:
    [for epoch in range(start_epoch, num_epochs)] around
    [for i, batch in enumerate(progress_bar, 1)]. *)
Definition schedule {Batch} (start_epoch : nat) (dataloader : list Batch)
  : list (nat * nat * Batch) :=
  flat_map (fun epoch => (fun ib => (epoch, ib.1, ib.2)) <$> enumerate1 dataloader)
    (seq start_epoch (num_epochs - start_epoch)).

Section Loop.

(** External collaborators.  A cached batch is a dictionary of tensors
    over [Scalar]; [patchify] is imported from [data]; [rand g n] is
    [torch.rand((n, 1))], returning the draws and the advanced generator;
    [forward_backward] is lines 194-199 (forward pass on
    [text_and_images] and [times], backward pass, optimizer and
    scheduler step, zero-grad) and returns the updated objects with
    [loss], [loss_dict.text.item()] and [loss_dict.diffusion[0].item()];
    [save_checkpoint] and [resume_checkpoint] are imported from [data]
    and act on a durable [Store].  Of these calls, [patchify] and
    [resume_checkpoint] may raise; the model call, the optimizer and
    the diagnostics of lines 220-231 are taken to return. *)
Variables Model Optimizer Scheduler Scalar Rng Store : Type.
Variable sizes : Sizes.
Variable patchify : Tensor Scalar -> Z -> result (Tensor Scalar).
Variable rand : Rng -> nat -> list Q * Rng.
Variable forward_backward :
  Model -> Optimizer -> Scheduler ->
  list (Tensor Scalar * Tensor Scalar) -> list Q ->
  (Model * Optimizer * Scheduler) * (Q * float * float).
Variable save_checkpoint :
  Model -> Optimizer -> Scheduler -> Q -> nat -> Z -> Store -> Store.
Variable resume_checkpoint :
  Model -> Optimizer -> Scheduler -> Store ->
  result (Model * Optimizer * Scheduler * nat * Z).

Abbreviation Batch := (gmap string (Tensor Scalar)).

(** The variables of [train] that live across steps, and the store the
    checkpoints are written to. *)
Record TrainState : Type := mkTrainState {
  model : Model;
  optimizer : Optimizer;
  scheduler : Scheduler;
  rng : Rng;
  step_counter : Z;
  text_loss_window : list float;
  diffusion_loss_window : list float;
  store : Store
}.

(** What one step does that can be seen from outside. *)
Record StepLog : Type := mkStepLog {
  ev_epoch : nat;               (* epoch                                *)
  ev_batch : nat;               (* i of enumerate(progress_bar, 1)      *)
  ev_step : Z;                  (* step_counter after the increment     *)
  ev_times : list Q;            (* times handed to the model            *)
  ev_avg_text_loss : float;     (* progress-bar postfix                 *)
  ev_avg_diffusion_loss : float;
  ev_debug : bool;              (* debug_image was called               *)
  ev_inference : bool;          (* the inference barrier was reached    *)
  ev_save : bool                (* save_checkpoint was called           *)
}.

(** Lines 176-186 up to the draw: the model input [text_and_images]
    and the number of timesteps, [latents.shape[0]]. *)
Definition prepare (batch : Batch)
  : result (list (Tensor Scalar * Tensor Scalar) * nat) :=
  let* input_ids := getitem batch "input_ids" in
  let* inner := shape_at input_ids 1 in
  let bsz := Z.of_nat inner * cache_batch_size sizes in
  let* text := reshape input_ids [bsz; -1] in
  let* image_latents := getitem batch "image_latents" in
  let* latents :=
    reshape image_latents [bsz; 4; image_size sizes / 8; image_size sizes / 8] in
  let* latents := patchify latents (patch_size sizes) in
  let* text_and_images :=
    for_each (fun i => let* t := row text i in
                       let* l := row latents i in
                       Ok (t, l))
      (seq 0 (Z.to_nat bsz)) in
  let* n := shape_at latents 0 in
  Ok (text_and_images, n).

(** The loop body, lines 174-237. *)
Definition train_step (cfg : Config) (epoch i : nat) (batch : Batch)
    (st : TrainState) : result (TrainState * StepLog) :=
  let step_counter := step_counter st + 1 in
  let* inputs := prepare batch in
  let (text_and_images, n) := inputs : list (Tensor Scalar * Tensor Scalar) * nat in
  let (times, rng) := rand (rng st) n in
  let* fixed := override cfg step_counter in
  let times := if fixed : bool then replicate n timestep else times in
  let '(model, optimizer, scheduler, (loss, text, diffusion)) :=
    forward_backward (model st) (optimizer st) (scheduler st)
      text_and_images times in
  let text_loss_window := record (text_loss_window st) text in
  let diffusion_loss_window := record (diffusion_loss_window st) diffusion in
  let* avg_text_loss := average text_loss_window in
  let* avg_diffusion_loss := average diffusion_loss_window in
  let* debug := at_cadence step_counter (N_debug cfg) in
  let* inference := at_cadence step_counter (N_inference cfg) in
  let* save := at_cadence step_counter (N_save cfg) in
  let store :=
    if save : bool
    then save_checkpoint model optimizer scheduler loss epoch step_counter (store st)
    else store st in
  Ok (mkTrainState model optimizer scheduler rng step_counter
        text_loss_window diffusion_loss_window store,
      mkStepLog epoch i step_counter times avg_text_loss avg_diffusion_loss
        debug inference save).

(** Run the given iterations in order; an exception stops the process.
    Returns the logs of the completed steps and the final state. *)
Fixpoint run_steps (cfg : Config) (iterations : list (nat * nat * Batch))
    (st : TrainState) : list StepLog * result TrainState :=
  match iterations with
  | [] => ([], Ok st)
  | (epoch, i, batch) :: iterations =>
      match train_step cfg epoch i batch st with
      | Err e => ([], Err e)
      | Ok (st, log) =>
          let r := run_steps cfg iterations st in (log :: r.1, r.2)
      end
  end.

(** Lines 130-136 and 162-163: the state the loops start from. *)
Definition startup (resume : bool) (model : Model) (optimizer : Optimizer)
    (scheduler : Scheduler) (rng : Rng) (store : Store)
  : result (nat * TrainState) :=
  let start_epoch := 0%nat in
  let step_counter := 0 in
  let* restored :=
    (if resume then resume_checkpoint model optimizer scheduler store
     else Ok (model, optimizer, scheduler, start_epoch, step_counter)) in
  let '(model, optimizer, scheduler, start_epoch, step_counter) := restored in
  Ok (start_epoch,
      mkTrainState model optimizer scheduler rng step_counter [] [] store).

(** [train()] from line 130 on. *)
Definition train (cfg : Config) (resume : bool) (dataloader : list Batch)
    (model : Model) (optimizer : Optimizer) (scheduler : Scheduler)
    (rng : Rng) (store : Store) : list StepLog * result TrainState :=
  match startup resume model optimizer scheduler rng store with
  | Err e => ([], Err e)
  | Ok (start_epoch, st) => run_steps cfg (schedule start_epoch dataloader) st
  end.

(** The same process, killed after [k] completed steps. *)
Definition train_killed (k : nat) (cfg : Config) (resume : bool)
    (dataloader : list Batch) (model : Model) (optimizer : Optimizer)
    (scheduler : Scheduler) (rng : Rng) (store : Store)
  : list StepLog * result TrainState :=
  match startup resume model optimizer scheduler rng store with
  | Err e => ([], Err e)
  | Ok (start_epoch, st) =>
      run_steps cfg (take k (schedule start_epoch dataloader)) st
  end.

(** Which batch of which epoch ran at which counter value. *)
Definition trace (logs : list StepLog) : list (nat * nat * Z) :=
  (fun l => (ev_epoch l, ev_batch l, ev_step l)) <$> logs.

End Loop.

Arguments mkTrainState {Model Optimizer Scheduler Rng Store}.
Arguments model {Model Optimizer Scheduler Rng Store} t.
Arguments optimizer {Model Optimizer Scheduler Rng Store} t.
Arguments scheduler {Model Optimizer Scheduler Rng Store} t.
Arguments rng {Model Optimizer Scheduler Rng Store} t.
Arguments step_counter {Model Optimizer Scheduler Rng Store} t.
Arguments text_loss_window {Model Optimizer Scheduler Rng Store} t.
Arguments diffusion_loss_window {Model Optimizer Scheduler Rng Store} t.
Arguments store {Model Optimizer Scheduler Rng Store} t.
Arguments prepare {Scalar}.
Arguments train_step {Model Optimizer Scheduler Scalar Rng Store}.
Arguments run_steps {Model Optimizer Scheduler Scalar Rng Store}.
Arguments startup {Model Optimizer Scheduler Rng Store}.
Arguments train {Model Optimizer Scheduler Scalar Rng Store}.
Arguments train_killed {Model Optimizer Scheduler Scalar Rng Store}.

End TrainingLoop.

(** ** Restarting with [--resume]: the loop over the checkpoint manager *)

Module Resumption.
Import PatchCodec TrainingLoop.
Section Restart.

Variables Model Optimizer Scheduler Scalar Rng : Type.
Variable sizes : Sizes.
Variable patchify : Tensor Scalar -> Z -> result (Tensor Scalar).
Variable rand : Rng -> nat -> list Q * Rng.
Variable forward_backward :
  Model -> Optimizer -> Scheduler ->
  list (Tensor Scalar * Tensor Scalar) -> list Q ->
  (Model * Optimizer * Scheduler) * (Q * LossTracker.float * LossTracker.float).

Abbreviation Batch := (gmap string (Tensor Scalar)).

Abbreviation Store := (CheckpointManager.Store Model Optimizer Scheduler).

(** [train()] with the checkpoint manager of [data] plugged in. *)
Definition run_train (cfg : Config) (resume : bool) (dataloader : list Batch)
    (model : Model) (optimizer : Optimizer) (scheduler : Scheduler)
    (rng : Rng) (store : Store) :=
  train sizes patchify rand forward_backward
    (CheckpointManager.save_checkpoint Model Optimizer Scheduler)
    (CheckpointManager.resume_checkpoint Model Optimizer Scheduler)
    cfg resume dataloader model optimizer scheduler rng store.

Definition run_killed (k : nat) (cfg : Config) (resume : bool)
    (dataloader : list Batch) (model : Model) (optimizer : Optimizer)
    (scheduler : Scheduler) (rng : Rng) (store : Store) :=
  train_killed sizes patchify rand forward_backward
    (CheckpointManager.save_checkpoint Model Optimizer Scheduler)
    (CheckpointManager.resume_checkpoint Model Optimizer Scheduler)
    k cfg resume dataloader model optimizer scheduler rng store.

(** A fresh run is killed after [k] steps; the process is then started
    again with [--resume] on the store the first one left behind.  The
    objects built before the resume and the generator seed are the same
    in both processes (lines 72-128 and 157). *)
Definition restart_after (k : nat) (cfg : Config) (dataloader : list Batch)
    (model : Model) (optimizer : Optimizer) (scheduler : Scheduler)
    (rng : Rng) (store : Store) :=
  match (run_killed k cfg false dataloader model optimizer scheduler rng store).2 with
  | Ok st =>
      run_train cfg true dataloader model optimizer scheduler rng
        (TrainingLoop.store st)
  | Err e => ([], Err e)
  end.

(** The last step before the kill wrote a checkpoint. *)
Definition killed_after_save (k : nat) (cfg : Config) (dataloader : list Batch)
    (model : Model) (optimizer : Optimizer) (scheduler : Scheduler)
    (rng : Rng) (store : Store) : Prop :=
  exists l,
    last (run_killed k cfg false dataloader model optimizer scheduler rng store).1
      = Some l
    /\ ev_save l = true.

(** "Training continues as if uninterrupted": the steps of the restarted
    process are the steps the first process had left, batch for batch and
    counter value for counter value. *)
Definition continues_as_uninterrupted (k : nat) (cfg : Config)
    (dataloader : list Batch) (model : Model) (optimizer : Optimizer)
    (scheduler : Scheduler) (rng : Rng) (store : Store) : Prop :=
  trace (restart_after k cfg dataloader model optimizer scheduler rng store).1
  = trace (drop k (run_train cfg false dataloader model optimizer scheduler
                     rng store).1).

End Restart.

Arguments run_train {Model Optimizer Scheduler Scalar Rng}.
Arguments run_killed {Model Optimizer Scheduler Scalar Rng}.
Arguments restart_after {Model Optimizer Scheduler Scalar Rng}.
Arguments killed_after_save {Model Optimizer Scheduler Scalar Rng}.
Arguments continues_as_uninterrupted {Model Optimizer Scheduler Scalar Rng}.

End Resumption.

(** ** A small concrete world to run the loop in *)

Module Demo.
Import PatchCodec TrainingLoop.

(** One cached shard per dataloader batch, images of 16 pixels a side,
    patches of 2 latent cells a side. *)
Definition sizes : Sizes := mkSizes 1 16 2.

(** Two shards per dataloader batch. *)
Definition paired_sizes : Sizes := mkSizes 2 16 2.

(** The patch codec of [data], as modelled from the spec. *)
Definition patchify (x : Tensor nat) (patch_size : Z) : result (Tensor nat) :=
  PatchCodec.patchify x (Z.to_nat patch_size).

(** Model, optimizer and scheduler count their updates; the generator
    counts its calls and draws [1/(g+2)]; the losses are 1.0 and 2.0. *)
Definition rand (g n : nat) : list Q * nat :=
  (replicate n (1 # Pos.of_succ_nat (S g)), S g).
Definition forward_backward (m o s : nat)
    (text_and_images : list (Tensor nat * Tensor nat)) (times : list Q)
  : (nat * nat * nat) * (Q * LossTracker.float * LossTracker.float) :=
  ((S m, S o, S s), (3 # 1, PrimFloat.one, PrimFloat.two)).

(** A batch the dataloader yields from a single cached shard: two
    samples, three token ids each, and their latents of shape [4, 2, 2]. *)
Definition batch (k : nat) : gmap string (Tensor nat) :=
  <["input_ids" := mkTensor [1; 2; 3]%nat (seq k 6)]>
    (<["image_latents" := mkTensor [1; 2; 4; 2; 2]%nat (seq k 32)]> ∅).

(** Two cached batches per epoch. *)
Definition dataloader : list (gmap string (Tensor nat)) := [batch 0; batch 1].

(** A checkpoint after every step. *)
Definition save_every_step : Config := mkConfig 7 7 1.

Definition empty_store : CheckpointManager.Store nat nat nat := [].

(** The state a fresh run enters the loops with. *)
Definition state0 : TrainState nat nat nat nat (CheckpointManager.Store nat nat nat) :=
  mkTrainState 0%nat 0%nat 0%nat 0%nat 0 [] [] empty_store.

(** A store whose most recent checkpoint was written at epoch 2 with the
    counter at 350. *)
Definition store350 : CheckpointManager.Store nat nat nat :=
  CheckpointManager.save_checkpoint nat nat nat 350%nat 350%nat 350%nat (3 # 1)
    2 350 empty_store.

(** A checkpoint every third step. *)
Definition save_every_third : Config := mkConfig 20 200 3.

(** A loop state whose counter is 19, so that the next step is step 20. *)
Definition state19 : TrainState nat nat nat nat (CheckpointManager.Store nat nat nat) :=
  mkTrainState 19%nat 19%nat 19%nat 19%nat 19 [] [] empty_store.

Definition step_from (cfg : Config) (epoch i : nat) (k : nat)
    (st : TrainState nat nat nat nat (CheckpointManager.Store nat nat nat)) :=
  train_step sizes patchify rand forward_backward
    (CheckpointManager.save_checkpoint nat nat nat) cfg epoch i (batch k) st.

(** The state and the log a step returns ([st] and an empty log if it
    raised). *)
Definition state_after (cfg : Config) (epoch i : nat) (batch : nat)
    (st : TrainState nat nat nat nat (CheckpointManager.Store nat nat nat)) :=
  match step_from cfg epoch i batch st with
  | Ok r => r.1
  | Err _ => st
  end.
Definition log_after (cfg : Config) (epoch i : nat) (batch : nat)
    (st : TrainState nat nat nat nat (CheckpointManager.Store nat nat nat)) :=
  match step_from cfg epoch i batch st with
  | Ok r => r.2
  | Err _ => mkStepLog 0 0 0 [] PrimFloat.zero PrimFloat.zero false false false
  end.

(** What line 176-186 hand to the model for [batch k] (nothing if the
    preparation raised). *)
Definition prepared (k : nat) : list (Tensor nat * Tensor nat) * nat :=
  match prepare sizes patchify (batch k) with
  | Ok r => r
  | Err _ => ([], 0%nat)
  end.

(** Step 20 under the default cadences, from [state19]. *)
Definition state20 := state_after default_config 0 20 0 state19.
Definition log20 := log_after default_config 0 20 0 state19.

End Demo.

(** ** The shapes a step hands to the patch codec (lines 76, 97, 178-180, 224) *)

Module StepShapes.
Import PatchCodec.

(** [dim_latent = 4*patch_size*patch_size] (line 76), the width of a
    patch the model is built for. *)
Definition dim_latent (patch_size : nat) : nat :=
  (4 * patch_size * patch_size)%nat.

(** [image_seq_len = image_size // (patch_size * 8)] (line 97). *)
Definition image_seq_len (image_size patch_size : nat) : nat :=
  (image_size / (patch_size * 8))%nat.

(** The shape of [latents] after the reshape of line 178:
    [(bsz, 4, image_size // 8, image_size // 8)]. *)
Definition latent_shape (bsz image_size : nat) : list nat :=
  [bsz; 4; image_size / 8; image_size / 8]%nat.

(** Line 224: [unpatchify2 = lambda x: unpatchify(x, patch_size, bsz, 4,
    image_size // 8, image_size // 8)]. *)
Definition unpatchify2 {A} (patch_size bsz image_size : nat) (x : Tensor A)
  : result (Tensor A) :=
  unpatchify x patch_size bsz 4 (image_size / 8) (image_size / 8).

End StepShapes.

(** ** Whole runs in the small concrete world *)

Module DemoRuns.
Import TrainingLoop.

(** [train()] on the two-batch dataloader, with the checkpoint manager. *)
Definition train_demo (cfg : Config) (resume : bool)
    (store : CheckpointManager.Store nat nat nat) :=
  train Demo.sizes Demo.patchify Demo.rand Demo.forward_backward
    (CheckpointManager.save_checkpoint nat nat nat)
    (CheckpointManager.resume_checkpoint nat nat nat)
    cfg resume Demo.dataloader 0%nat 0%nat 0%nat 0%nat store.

(** The state such a run ends in ([Demo.state0] if it raised) and the
    log of its [n]-th step (an empty log if there is none). *)
Definition trained_state (cfg : Config) (resume : bool)
    (store : CheckpointManager.Store nat nat nat) :=
  match (train_demo cfg resume store).2 with
  | Ok st => st
  | Err _ => Demo.state0
  end.
Definition log_at (cfg : Config) (resume : bool)
    (store : CheckpointManager.Store nat nat nat) (n : nat) : StepLog :=
  default (mkStepLog 0 0 0 [] PrimFloat.zero PrimFloat.zero false false false)
    ((train_demo cfg resume store).1 !! n).

(** The iterations of a fresh run, executed from [Demo.state0]. *)
Definition run_demo (cfg : Config) :=
  run_steps Demo.sizes Demo.patchify Demo.rand Demo.forward_backward
    (CheckpointManager.save_checkpoint nat nat nat)
    cfg (schedule 0 Demo.dataloader) Demo.state0.
(** The state of a fresh run killed after [k] completed steps. *)
Definition killed_state (cfg : Config) (k : nat) :=
  match (train_killed Demo.sizes Demo.patchify Demo.rand Demo.forward_backward
           (CheckpointManager.save_checkpoint nat nat nat)
           (CheckpointManager.resume_checkpoint nat nat nat)
           k cfg false Demo.dataloader 0%nat 0%nat 0%nat 0%nat
           Demo.empty_store).2 with
  | Ok st => st
  | Err _ => Demo.state0
  end.
Definition run_demo_state (cfg : Config) :=
  match (run_demo cfg).2 with
  | Ok st => st
  | Err _ => Demo.state0
  end.

End DemoRuns.

(** ** Shard file names and small cache states *)

Module FileNames.

(** No character of the string is an underscore. *)
Fixpoint underscore_free (s : string) : Prop :=
  match s with
  | EmptyString => True
  | String c s => c <> "_"%char /\ underscore_free s
  end.

End FileNames.

Module CacheDemo.
Import LatentCache.

(** No cache directory yet. *)
Definition empty_cache : CacheState nat := mkCacheState nat None 0.

(** The state a build leaves ([st] itself if it raised). *)
Definition built (force : bool) (loader : list (gmap string nat))
    (st : CacheState nat) : CacheState nat :=
  match build nat demo_encode force 4 loader st with
  | Ok st' => st'
  | Err _ => st
  end.

(** A dataset whose second batch has no pixels. *)
Definition broken_loader : list (gmap string nat) :=
  [demo_batch 0; <["input_ids" := 1%nat]> ∅].

(** A directory left by earlier runs: a shard of batch size 2 and a shard
    of batch size 4 with index 5. *)
Definition stale_dir : gmap string (gmap string nat) :=
  <[cache_file 2 0 := demo_shard 7]> (<[cache_file 4 5 := demo_shard 9]> ∅).
Definition stale_cache : CacheState nat := mkCacheState nat (Some stale_dir) 0.

End CacheDemo.

(** * Properties *)

Module LossTrackerFacts.
Import LossTracker.


Lemma length_lastn {A} (n : nat) (l : list A) :
  length (lastn n l) = Nat.min (length l) n.
Proof. unfold lastn. rewrite length_drop. lia. Qed.

Lemma lastn_snoc {A} (n : nat) (l : list A) (x : A) :
  lastn (S n) (l ++ [x]) = lastn n l ++ [x].
Proof.
  unfold lastn. rewrite length_app. simpl.
  replace (length l + 1 - S n)%nat with (length l - n)%nat by lia.
  rewrite drop_app_le by lia. reflexivity.
Qed.

Lemma tail_drop {A} (l : list A) : tail l = drop 1 l.
Proof. destruct l; reflexivity. Qed.

(** One [record] keeps the window equal to the last [N] of the history. *)
Lemma record_lastn {A} (hist : list A) (v : A) :
  record (lastn N_loss_window hist) v = lastn N_loss_window (hist ++ [v]).
Proof.
  unfold record. rewrite length_app, length_lastn. simpl.
  destruct (N_loss_window <? Nat.min (length hist) N_loss_window + 1)%nat eqn:E.
  - apply Nat.ltb_lt in E.
    rewrite <- lastn_snoc, tail_drop. unfold lastn.
    rewrite drop_drop, !length_app. simpl. f_equal. lia.
  - apply Nat.ltb_ge in E.
    rewrite <- lastn_snoc. unfold lastn. rewrite length_app. simpl.
    f_equal. lia.
Qed.

Lemma fold_record_lastn {A} (vs hist : list A) :
  fold_left record vs (lastn N_loss_window hist)
  = lastn N_loss_window (hist ++ vs).
Proof.
  revert hist. induction vs as [|v vs IH]; intros hist; simpl.
  - by rewrite app_nil_r.
  - rewrite record_lastn, IH, <- app_assoc. reflexivity.
Qed.

Lemma record_all_lastn {A} (vs : list A) :
  record_all vs = lastn N_loss_window vs.
Proof. apply (fold_record_lastn vs []). Qed.

Lemma average_nonempty (w : list float) :
  w <> [] ->
  average w = Ok (PrimFloat.div (sum w) (float_of_len (length w))).
Proof.
  intros Hne. unfold average.
  destruct (length w =? 0)%nat eqn:E; [|done].
  apply Nat.eqb_eq in E. destruct w; [congruence | discriminate].
Qed.

Lemma record_step {A} (w : list A) (v : A) :
  (length w <= N_loss_window)%nat ->
  record w v = (if (length w <? N_loss_window)%nat then w else tail w) ++ [v]
  /\ (length (record w v) <= N_loss_window)%nat.
Proof.
  intros Hle. unfold record. rewrite length_app. simpl.
  destruct (length w <? N_loss_window)%nat eqn:E1.
  - apply Nat.ltb_lt in E1.
    destruct (N_loss_window <? length w + 1)%nat eqn:E2.
    + apply Nat.ltb_lt in E2. lia.
    + rewrite length_app. simpl. split; [done | lia].
  - apply Nat.ltb_ge in E1.
    destruct (N_loss_window <? length w + 1)%nat eqn:E2.
    + destruct w as [|a w]; [simpl in E1; unfold N_loss_window in E1; lia|].
      simpl. rewrite length_app. simpl in *. split; [done | lia].
    + apply Nat.ltb_ge in E2. lia.
Qed.

Lemma record_nonempty {A} (w : list A) (v : A) : record w v <> [].
Proof.
  unfold record. destruct (N_loss_window <? length (w ++ [v]))%nat eqn:E.
  - apply Nat.ltb_lt in E. unfold N_loss_window in E.
    destruct (w ++ [v]) as [|a [|b l]]; simpl in *; [lia | lia | done].
  - destruct w; done.
Qed.




(** C7.  A window never holds more than [N_loss_window = 100] samples
    between two [record] operations; a [record] on a full window drops
    the oldest sample and appends the new one, on a window that is not
    full it only appends; after [k] recordings the window holds exactly
    the most recent [min k 100] samples, in order. *)
Theorem window_bounded_fifo {A} (vs : list A) :
  (length (record_all vs) <= 100)%nat
  /\ record_all vs = lastn (Nat.min (length vs) 100) vs
  /\ length (record_all vs) = Nat.min (length vs) 100
  /\ forall v,
       record_all (vs ++ [v])
       = (if (length (record_all vs) <? 100)%nat
          then record_all vs else tail (record_all vs)) ++ [v].
Proof.
  assert (length (record_all vs) = Nat.min (length vs) 100) as Hlen.
  { rewrite record_all_lastn. apply length_lastn. }
  split; [lia|]. split; [|split; [done|]].
  - rewrite record_all_lastn. unfold lastn, N_loss_window. f_equal. lia.
  - intros v. unfold record_all at 1. rewrite fold_left_app. simpl.
    apply record_step. unfold N_loss_window. fold (record_all vs). lia.
Qed.

End LossTrackerFacts.

Module PatchCodecFacts.
Import PatchCodec.
Local Open Scope nat_scope.

Lemma digit (q n r : nat) :
  r < n -> (q * n + r) / n = q /\ (q * n + r) mod n = r.
Proof.
  intros Hr. split; symmetry.
  - apply (Nat.div_unique _ n q r); lia.
  - apply (Nat.mod_unique _ n q r); lia.
Qed.

Lemma digit_div (q n r : nat) : r < n -> (q * n + r) / n = q.
Proof. intros; by apply digit. Qed.

Lemma digit_mod (q n r : nat) : r < n -> (q * n + r) mod n = r.
Proof. intros; by apply digit. Qed.

Lemma ravel_lt (dims idx : list nat) :
  Forall2 lt idx dims -> ravel dims idx < numel dims.
Proof.
  induction 1 as [|i d idx dims Hi _ IH]; simpl; [lia|].
  fold (numel dims). nia.
Qed.

Lemma unravel_ravel (dims idx : list nat) :
  Forall2 lt idx dims -> unravel dims (ravel dims idx) = idx.
Proof.
  induction 1 as [|i d idx dims Hi Hrest IH]; simpl; [done|].
  pose proof (ravel_lt _ _ Hrest) as Hlt.
  rewrite digit_div, digit_mod by done. by rewrite IH.
Qed.

Lemma ravel_unravel (dims : list nat) (k : nat) :
  k < numel dims -> ravel dims (unravel dims k) = k.
Proof.
  revert k. induction dims as [|d dims IH]; intros k; simpl.
  - lia.
  - fold (numel dims). intros Hk.
    assert (numel dims <> 0) as Hn by nia.
    rewrite IH by (by apply Nat.mod_upper_bound).
    pose proof (Nat.div_mod_eq k (numel dims)). lia.
Qed.

Lemma unravel_lt (dims : list nat) (k : nat) :
  k < numel dims -> Forall2 lt (unravel dims k) dims.
Proof.
  revert k. induction dims as [|d dims IH]; intros k; simpl.
  - constructor.
  - fold (numel dims). intros Hk.
    assert (numel dims <> 0) as Hn by nia.
    constructor.
    + apply Nat.Div0.div_lt_upper_bound. lia.
    + apply IH. by apply Nat.mod_upper_bound.
Qed.

Lemma dim_split (p n : nat) : 0 < p -> n mod p = 0 -> n = n / p * p.
Proof.
  intros Hp Hn. pose proof (Nat.div_mod_eq n p). lia.
Qed.

Lemma unravel4 (B C H W m : nat) :
  m < numel [B; C; H; W] ->
  exists b c h w,
    unravel [B; C; H; W] m = [b; c; h; w]
    /\ b < B /\ c < C /\ h < H /\ w < W
    /\ ravel [B; C; H; W] [b; c; h; w] = m.
Proof.
  intros Hm.
  pose proof (unravel_lt _ _ Hm) as Hd.
  pose proof (ravel_unravel _ _ Hm) as Hr.
  cbn [unravel] in *. rewrite !Forall2_cons in Hd.
  do 4 eexists. split; [reflexivity|]. tauto.
Qed.

Lemma unravel3 (B L D k : nat) :
  k < numel [B; L; D] ->
  exists b l d,
    unravel [B; L; D] k = [b; l; d]
    /\ b < B /\ l < L /\ d < D
    /\ ravel [B; L; D] [b; l; d] = k.
Proof.
  intros Hk.
  pose proof (unravel_lt _ _ Hk) as Hd.
  pose proof (ravel_unravel _ _ Hk) as Hr.
  cbn [unravel] in *. rewrite !Forall2_cons in Hd.
  do 3 eexists. split; [reflexivity|]. tauto.
Qed.

(** The two offset maps are inverse to each other on the image, and map
    into the other tensor. *)
Lemma image_source_lt (B C H W p m : nat) :
  0 < p -> H mod p = 0 -> W mod p = 0 ->
  m < numel [B; C; H; W] ->
  image_source B C H W p m < numel [B; H / p * (W / p); C * p * p].
Proof.
  intros Hp HH HW Hm. unfold image_source.
  destruct (unravel4 _ _ _ _ _ Hm) as (b & c & h & w & -> & Hb & Hc & Hh & Hw & _).
  apply ravel_lt.
  pose proof (dim_split p H Hp HH). pose proof (dim_split p W Hp HW).
  assert (h / p < H / p) by (apply Nat.Div0.div_lt_upper_bound; lia).
  assert (w / p < W / p) by (apply Nat.Div0.div_lt_upper_bound; lia).
  assert (h mod p < p) by (apply Nat.mod_upper_bound; lia).
  assert (w mod p < p) by (apply Nat.mod_upper_bound; lia).
  repeat constructor; nia.
Qed.

Lemma patch_source_lt (B C H W p k : nat) :
  0 < p -> H mod p = 0 -> W mod p = 0 ->
  k < numel [B; H / p * (W / p); C * p * p] ->
  patch_source B C H W p k < numel [B; C; H; W].
Proof.
  intros Hp HH HW Hk. unfold patch_source.
  destruct (unravel3 _ _ _ _ Hk) as (b & l & d & -> & Hb & Hl & Hd & _).
  apply ravel_lt.
  pose proof (dim_split p H Hp HH). pose proof (dim_split p W Hp HW).
  assert (W / p <> 0) by nia.
  assert (l / (W / p) < H / p)
    by (apply Nat.Div0.div_lt_upper_bound; lia).
  assert (l mod (W / p) < W / p) by (by apply Nat.mod_upper_bound).
  assert (d / (p * p) < C) by (apply Nat.Div0.div_lt_upper_bound; lia).
  assert (d mod (p * p) / p < p).
  { apply Nat.Div0.div_lt_upper_bound. apply Nat.mod_upper_bound. nia. }
  assert (d mod p < p) by (apply Nat.mod_upper_bound; lia).
  repeat constructor; nia.
Qed.

Lemma patch_image_source (B C H W p m : nat) :
  0 < p -> H mod p = 0 -> W mod p = 0 ->
  m < numel [B; C; H; W] ->
  patch_source B C H W p (image_source B C H W p m) = m.
Proof.
  intros Hp HH HW Hm. unfold image_source, patch_source.
  destruct (unravel4 _ _ _ _ _ Hm) as (b & c & h & w & -> & Hb & Hc & Hh & Hw & Hr).
  pose proof (dim_split p H Hp HH). pose proof (dim_split p W Hp HW).
  assert (h / p < H / p) by (apply Nat.Div0.div_lt_upper_bound; lia).
  assert (w / p < W / p) by (apply Nat.Div0.div_lt_upper_bound; lia).
  assert (h mod p < p) by (apply Nat.mod_upper_bound; lia).
  assert (w mod p < p) by (apply Nat.mod_upper_bound; lia).
  rewrite unravel_ravel by (repeat constructor; nia).
  rewrite !digit_div, !digit_mod by nia.
  replace (c * (p * p) + h mod p * p + w mod p)
    with ((c * p + h mod p) * p + w mod p) by lia.
  rewrite digit_mod by lia.
  replace ((c * p + h mod p) * p + w mod p)
    with (c * (p * p) + (h mod p * p + w mod p)) by lia.
  rewrite digit_div, digit_mod by nia.
  rewrite digit_div by lia.
  rewrite <- Hr. do 2 f_equal.
  pose proof (Nat.div_mod_eq h p). pose proof (Nat.div_mod_eq w p).
  repeat f_equal; lia.
Qed.

Lemma gather_seq {A} (data : list A) (f : nat -> nat) (n : nat) :
  (forall k, k < n -> f k < length data) ->
  exists out,
    gather data (f <$> seq 0 n) = Ok out
    /\ length out = n
    /\ forall k, k < n -> out !! k = data !! f k.
Proof.
  intros Hf. unfold gather.
  destruct (mapM (fun k => data !! k) (f <$> seq 0 n)) as [out|] eqn:E.
  - apply mapM_Some in E. exists out. split; [done|]. split.
    + apply Forall2_length in E.
      by rewrite length_fmap, length_seq in E.
    + intros k Hk.
      assert ((f <$> seq 0 n) !! k = Some (f k)) as Hlk.
      { by rewrite list_lookup_fmap, lookup_seq_lt. }
      destruct (Forall2_lookup_l _ _ _ _ _ E Hlk) as (y & -> & Hy). done.
  - apply mapM_None in E. apply Exists_exists in E as (k & Hin & Hnone).
    apply list_elem_of_fmap in Hin as (j & -> & Hj).
    apply elem_of_seq in Hj.
    apply lookup_ge_None in Hnone. specialize (Hf j). lia.
Qed.

(** C1.  For a 4D tensor [x] of shape [[B, C, H, W]] with [H] and [W]
    divisible by the patch size [p], [patchify x p] succeeds with shape
    [[B, (H/p)*(W/p), C*p*p]] and [unpatchify] of it with the same shape
    parameters returns [x] itself, element for element. *)
Theorem unpatchify_patchify {A} (x : Tensor A) (B C H W p : nat) :
  shape x = [B; C; H; W] ->
  length (data x) = B * C * H * W ->
  0 < p -> H mod p = 0 -> W mod p = 0 ->
  exists y,
    patchify x p = Ok y
    /\ shape y = [B; H / p * (W / p); C * p * p]
    /\ unpatchify y p B C H W = Ok x.
Proof.
  intros Hshape Hlen Hp HH HW.
  assert (length (data x) = numel [B; C; H; W]) as Hlen' by (simpl; lia).
  unfold patchify. rewrite Hshape.
  apply Nat.ltb_lt in Hp as Hp'. apply Nat.eqb_eq in HH as HH', HW as HW'.
  apply Nat.eqb_eq in Hlen' as Hlen''.
  rewrite Hp', HH', HW', Hlen''. cbn [andb].
  destruct (gather_seq (data x) (patch_source B C H W p)
              (numel [B; H / p * (W / p); C * p * p])) as (d1 & -> & Hl1 & Hd1).
  { intros k Hk. rewrite Hlen'. by apply patch_source_lt. }
  cbn [rbind]. eexists. split; [reflexivity|]. split; [reflexivity|].
  unfold unpatchify. cbn [shape data].
  rewrite Hp', HH', HW', !Nat.eqb_refl. cbn [andb].
  apply Nat.eqb_eq in Hl1 as Hl1'. rewrite Hl1'.
  destruct (gather_seq d1 (image_source B C H W p) (numel [B; C; H; W]))
    as (d2 & -> & Hl2 & Hd2).
  { intros m Hm. rewrite Hl1. by apply image_source_lt. }
  cbn [rbind]. f_equal. destruct x as [sh dx]. cbn [shape data] in *.
  subst sh. f_equal. apply list_eq. intros m.
  destruct (decide (m < numel [B; C; H; W])) as [Hm|Hm].
  - rewrite Hd2 by done.
    rewrite Hd1 by (by apply image_source_lt).
    by rewrite patch_image_source.
  - rewrite !(proj2 (lookup_ge_None _ _)) by lia. done.
Qed.

Example patchify_4x4 :
  patchify (mkTensor [1; 1; 4; 4] (seq 0 16)) 2
  = Ok (mkTensor [1; 4; 4]
          [0; 1; 4; 5; 2; 3; 6; 7; 8; 9; 12; 13; 10; 11; 14; 15]).
Proof. vm_compute. reflexivity. Qed.

Example patchify_channel_major :
  patchify (mkTensor [1; 2; 2; 2] (seq 0 8)) 2
  = Ok (mkTensor [1; 1; 8] (seq 0 8)).
Proof. vm_compute. reflexivity. Qed.

Example patchify_not_divisible :
  patchify (mkTensor [1; 1; 3; 4] (seq 0 12)) 2 = Err ShapeError.
Proof. vm_compute. reflexivity. Qed.

(** The scenario of the spec: patch size 2 on a [[1,4,32,32]] latent. *)
Lemma unpatchify_patchify_sample :
  exists y,
    patchify sample_latent 2 = Ok y
    /\ shape y = [1; 256; 16]
    /\ unpatchify y 2 1 4 32 32 = Ok sample_latent.
Proof.
  apply (unpatchify_patchify sample_latent 1 4 32 32 2);
    [reflexivity | vm_compute; reflexivity | lia | reflexivity | reflexivity].
Defined.

End PatchCodecFacts.

Module TrainingLoopFacts.
Import LossTracker LossTrackerFacts PatchCodec Torch TrainingLoop.

Lemma at_cadence_Ok (s N : Z) (b : bool) :
  at_cadence s N = Ok b <-> N <> 0 /\ b = (s mod N =? 0).
Proof.
  unfold at_cadence, py_mod. destruct (Z.eqb_spec N 0); simpl.
  - split; [discriminate | tauto].
  - split; [intros [= <-]; done | intros [_ ->]; done].
Qed.

Lemma at_cadence_true (s N : Z) :
  at_cadence s N = Ok true <-> N <> 0 /\ (N | s).
Proof.
  rewrite at_cadence_Ok. split.
  - intros [HN Hb]. split; [done|].
    apply Z.mod_divide; [done|]. symmetry in Hb. by apply Z.eqb_eq in Hb.
  - intros [HN Hd]. split; [done|].
    apply Z.mod_divide in Hd; [|done]. by rewrite Hd.
Qed.

Lemma at_cadence_Err (s N : Z) (e : error) :
  at_cadence s N = Err e -> e = ZeroDivisionError CadenceModulus.
Proof.
  unfold at_cadence, py_mod. destruct (N =? 0); simpl; congruence.
Qed.

Lemma override_Err (cfg : Config) (s : Z) (e : error) :
  override cfg s = Err e -> e = ZeroDivisionError CadenceModulus.
Proof.
  unfold override.
  destruct (at_cadence s (N_inference cfg)) as [[|]|e'] eqn:E; simpl.
  - discriminate.
  - apply at_cadence_Err.
  - intros [= <-]. by apply at_cadence_Err in E.
Qed.

Lemma average_record (w : list float) (v : float) : is_Ok (average (record w v)).
Proof.
  rewrite (average_nonempty _ (record_nonempty w v)). by eexists.
Qed.

Section LoopFacts.
Context {Model Optimizer Scheduler Scalar Rng Store : Type}.
Context (sizes : Sizes).
Context (patchify : Tensor Scalar -> Z -> result (Tensor Scalar)).
Context (rand : Rng -> nat -> list Q * Rng).
Context (forward_backward :
  Model -> Optimizer -> Scheduler ->
  list (Tensor Scalar * Tensor Scalar) -> list Q ->
  (Model * Optimizer * Scheduler) * (Q * LossTracker.float * LossTracker.float)).

Abbreviation Batch := (gmap string (Tensor Scalar)).
Context (save_checkpoint :
  Model -> Optimizer -> Scheduler -> Q -> nat -> Z -> Store -> Store).

Abbreviation State := (TrainState Model Optimizer Scheduler Rng Store).
Abbreviation step := (train_step sizes patchify rand forward_backward save_checkpoint).
Abbreviation prep := (prepare sizes patchify).
Abbreviation run := (run_steps sizes patchify rand forward_backward save_checkpoint).

Lemma train_step_inv (cfg : Config) (epoch i : nat) (batch : Batch)
    (st st' : State) (log : StepLog) :
  step cfg epoch i batch st = Ok (st', log) ->
  step_counter st' = step_counter st + 1
  /\ ev_epoch log = epoch /\ ev_batch log = i
  /\ ev_step log = step_counter st + 1
  /\ (exists (fixed : bool) text_and_images n loss text diffusion,
        prep batch = Ok (text_and_images, n)
        /\ override cfg (step_counter st + 1) = Ok fixed
        /\ ev_times log =
             (if fixed then replicate n timestep else (rand (rng st) n).1)
        /\ forward_backward (model st) (optimizer st) (scheduler st)
             text_and_images (ev_times log)
           = ((model st', optimizer st', scheduler st'), (loss, text, diffusion)))
  /\ at_cadence (step_counter st + 1) (N_debug cfg) = Ok (ev_debug log)
  /\ at_cadence (step_counter st + 1) (N_inference cfg) = Ok (ev_inference log)
  /\ at_cadence (step_counter st + 1) (N_save cfg) = Ok (ev_save log)
  /\ (ev_save log = false -> store st' = store st)
  /\ (ev_save log = true ->
      exists loss,
        store st' = save_checkpoint (model st') (optimizer st') (scheduler st')
                      loss epoch (step_counter st') (store st)).
Proof.
  unfold train_step.
  destruct (prep batch) as [[tai n]|] eqn:Ep; cbn [rbind]; [|discriminate].
  destruct (rand (rng st) n) as [times g] eqn:Er.
  destruct (override cfg (step_counter st + 1)) as [fixed|] eqn:Eo;
    cbn [rbind]; [|discriminate].
  destruct (forward_backward _ _ _ _ _) as [[[m o] sc] [[loss text] diff]] eqn:Ef.
  destruct (average (record (text_loss_window st) text)); cbn [rbind]; [|discriminate].
  destruct (average (record (diffusion_loss_window st) diff)); cbn [rbind]; [|discriminate].
  destruct (at_cadence _ (N_debug cfg)); cbn [rbind]; [|discriminate].
  destruct (at_cadence _ (N_inference cfg)); cbn [rbind]; [|discriminate].
  destruct (at_cadence _ (N_save cfg)) as [sv|]; cbn [rbind]; [|discriminate].
  intros [= <- <-]. cbn. repeat split; try done.
  - exists fixed, tai, n, loss, text, diff. split; [done|]. split; [done|].
    rewrite Er. cbn [fst]. split; [done | exact Ef].
  - by intros ->.
  - intros ->. by exists loss.
Qed.

(** A step raises only while preparing the model input (lines 176-186)
    or on a zero cadence. *)
Lemma train_step_Err (cfg : Config) (epoch i : nat) (batch : Batch)
    (st : State) (e : error) :
  step cfg epoch i batch st = Err e ->
  e = ZeroDivisionError CadenceModulus \/ prep batch = Err e.
Proof.
  unfold train_step.
  destruct (prep batch) as [[tai n]|] eqn:Ep; cbn [rbind];
    [|intros [= <-]; by right].
  intros Hstep. left. revert Hstep.
  destruct (rand (rng st) n) as [times g] eqn:Er.
  destruct (override cfg (step_counter st + 1)) as [fixed|] eqn:Eo;
    cbn [rbind]; [|intros [= <-]; by apply override_Err in Eo].
  destruct (forward_backward _ _ _ _ _) as [[[m o] sc] [[loss text] diff]].
  destruct (average_record (text_loss_window st) text) as [a1 ->].
  destruct (average_record (diffusion_loss_window st) diff) as [a2 ->].
  cbn [rbind].
  destruct (at_cadence _ (N_debug cfg)) eqn:E1; cbn [rbind];
    [|intros [= <-]; by apply at_cadence_Err in E1].
  destruct (at_cadence _ (N_inference cfg)) eqn:E2; cbn [rbind];
    [|intros [= <-]; by apply at_cadence_Err in E2].
  destruct (at_cadence _ (N_save cfg)) eqn:E3; cbn [rbind];
    [|intros [= <-]; by apply at_cadence_Err in E3].
  discriminate.
Qed.

Lemma at_cadence_nonzero (s N : Z) :
  N <> 0 -> at_cadence s N = Ok (s mod N =? 0).
Proof. intros HN. by apply at_cadence_Ok. Qed.

Lemma train_step_total (cfg : Config) (epoch i : nat) (batch : Batch) (st : State) :
  is_Ok (prep batch) ->
  N_debug cfg <> 0 -> N_inference cfg <> 0 -> N_save cfg <> 0 ->
  is_Ok (step cfg epoch i batch st).
Proof.
  intros [[tai n] Hp] Hd Hi Hs. unfold train_step, override. rewrite Hp.
  cbn [rbind].
  destruct (rand (rng st) n) as [times g].
  rewrite !(at_cadence_nonzero _ (N_inference cfg)) by done.
  rewrite !(at_cadence_nonzero _ (N_debug cfg)) by done.
  rewrite !(at_cadence_nonzero _ (N_save cfg)) by done.
  cbn [rbind].
  assert (is_Ok (if (step_counter st + 1) mod N_inference cfg =? 0
                 then Ok true
                 else Ok ((step_counter st + 1) mod N_debug cfg =? 0))) as [fixed ->].
  { destruct (_ =? 0); by eexists. }
  cbn [rbind].
  destruct (forward_backward _ _ _ _ _) as [[[m o] sc] [[loss text] diff]].
  destruct (average_record (text_loss_window st) text) as [a1 ->].
  destruct (average_record (diffusion_loss_window st) diff) as [a2 ->].
  cbn [rbind]. by eexists.
Qed.

(** The [n]-th log of a run is the log of the [n]-th iteration, taken
    from a state whose counter is [n] above the initial one. *)
Lemma run_steps_lookup (cfg : Config) (its : list (nat * nat * Batch))
    (st : State) (n : nat) (l : StepLog) :
  (run cfg its st).1 !! n = Some l ->
  exists epoch i batch st_n st',
    its !! n = Some (epoch, i, batch)
    /\ step_counter st_n = step_counter st + Z.of_nat n
    /\ (n = 0%nat -> st_n = st)
    /\ step cfg epoch i batch st_n = Ok (st', l).
Proof.
  revert st n. induction its as [|[[epoch i] batch] its IH]; intros st n; simpl.
  - by rewrite lookup_nil.
  - destruct (step cfg epoch i batch st) as [[st1 log]|e] eqn:E; simpl;
      [|by rewrite lookup_nil].
    destruct n as [|n]; simpl.
    + intros [= <-]. exists epoch, i, batch, st, st1.
      repeat split; [lia | done].
    + intros Hl. apply IH in Hl as (e' & i' & b' & st_n & st' & H1 & H2 & _ & H4).
      exists e', i', b', st_n, st'. repeat split; try done.
      apply train_step_inv in E as (Hc & _). lia.
Qed.

Lemma run_steps_total (cfg : Config) (its : list (nat * nat * Batch)) (st : State) :
  Forall (fun it : nat * nat * Batch => is_Ok (prep it.2)) its ->
  N_debug cfg <> 0 -> N_inference cfg <> 0 -> N_save cfg <> 0 ->
  length (run cfg its st).1 = length its /\ is_Ok (run cfg its st).2.
Proof.
  intros Hprep Hd Hi Hs. revert st.
  induction Hprep as [|[[epoch i] batch] its Hp _ IH]; intros st; simpl.
  - split; [done | by eexists].
  - destruct (train_step_total cfg epoch i batch st Hp Hd Hi Hs) as [[st1 log] ->].
    simpl. destruct (IH st1) as [-> Hok]. done.
Qed.

Lemma run_steps_Ok_length (cfg : Config) (its : list (nat * nat * Batch))
    (st st' : State) :
  (run cfg its st).2 = Ok st' -> length (run cfg its st).1 = length its.
Proof.
  revert st. induction its as [|[[epoch i] batch] its IH]; intros st; simpl.
  - done.
  - destruct (step cfg epoch i batch st) as [[st1 log]|e]; simpl; [|discriminate].
    intros Hr. by rewrite (IH st1 Hr).
Qed.

Lemma run_steps_app (cfg : Config) (its1 its2 : list (nat * nat * Batch))
    (st : State) :
  run cfg (its1 ++ its2) st
  = match (run cfg its1 st).2 with
    | Ok st1 =>
        ((run cfg its1 st).1 ++ (run cfg its2 st1).1, (run cfg its2 st1).2)
    | Err e => ((run cfg its1 st).1, Err e)
    end.
Proof.
  revert st. induction its1 as [|[[epoch i] batch] its1 IH]; intros st; simpl.
  - by destruct (run cfg its2 st).
  - destruct (step cfg epoch i batch st) as [[st1 log]|e]; simpl; [|done].
    rewrite IH. by destruct (run cfg its1 st1).2.
Qed.

(** Before the counter reaches a positive save cadence nothing is written. *)
Lemma no_save_before_cadence (cfg : Config) (its : list (nat * nat * Batch))
    (st st' : State) :
  (run cfg its st).2 = Ok st' ->
  0 <= step_counter st ->
  step_counter st + Z.of_nat (length its) < N_save cfg ->
  store st' = store st.
Proof.
  revert st. induction its as [|[[epoch i] batch] its IH]; intros st; simpl.
  - by intros [= <-].
  - destruct (step cfg epoch i batch st) as [[st1 log]|e] eqn:E; simpl;
      [|discriminate].
    intros Hr H0 Hlt.
    apply train_step_inv in E as (Hc & _ & _ & _ & _ & _ & _ & Hsv & Hkeep & _).
    rewrite (IH st1 Hr) by lia. apply Hkeep.
    apply at_cadence_Ok in Hsv as [_ ->].
    rewrite Z.mod_small by lia. apply Z.eqb_neq. lia.
Qed.

Lemma run_steps_final (cfg : Config) (its : list (nat * nat * Batch))
    (st st' : State) :
  (run cfg its st).2 = Ok st' ->
  step_counter st' = step_counter st + Z.of_nat (length (run cfg its st).1).
Proof.
  revert st. induction its as [|[[epoch i] batch] its IH]; intros st; simpl.
  - intros [= <-]. lia.
  - destruct (step cfg epoch i batch st) as [[st1 log]|e] eqn:E; simpl;
      [|discriminate].
    intros Hr. apply IH in Hr. rewrite Hr.
    apply train_step_inv in E as (Hc & _). lia.
Qed.

End LoopFacts.

Lemma enumerate1_lookup {Batch} (dl : list Batch) (n i : nat) (b : Batch) :
  enumerate1 dl !! n = Some (i, b) <-> i = S n /\ dl !! n = Some b.
Proof.
  unfold enumerate1. rewrite lookup_zip_with_Some. split.
  - intros (x & y & [= -> ->] & Hx & Hy). apply lookup_seq in Hx. split; [lia|done].
  - intros [-> Hb]. exists (S n), b. split; [done|]. split; [|done].
    apply lookup_seq. apply lookup_lt_Some in Hb. lia.
Qed.

Lemma div_mod_period (n L : nat) :
  L <> 0%nat -> (L <= n)%nat ->
  (n / L = S ((n - L) / L))%nat /\ (n mod L = (n - L) mod L)%nat.
Proof.
  intros HL Hle. remember (n - L)%nat as m eqn:Hm.
  replace n with (m + 1 * L)%nat by lia.
  rewrite Nat.div_add, Nat.Div0.mod_add by done. lia.
Qed.

Lemma epochs_lookup {Batch} (dl : list Batch) (count start n e i : nat) (b : Batch) :
  flat_map (fun epoch => (fun ib => (epoch, ib.1, ib.2)) <$> enumerate1 dl)
    (seq start count) !! n = Some (e, i, b) ->
  (e = start + n / length dl)%nat /\ (i = n mod length dl + 1)%nat
  /\ dl !! (n mod length dl)%nat = Some b /\ (e < start + count)%nat.
Proof.
  revert start n. induction count as [|count IH]; intros start n; simpl.
  - by rewrite lookup_nil.
  - assert (length ((fun ib : nat * Batch => (start, ib.1, ib.2)) <$> enumerate1 dl)
            = length dl) as Hlen.
    { rewrite length_fmap. unfold enumerate1.
      rewrite length_zip_with, length_seq. lia. }
    destruct (decide (n < length dl)%nat) as [Hn|Hn].
    + rewrite lookup_app_l by lia. rewrite list_lookup_fmap.
      destruct (enumerate1 dl !! n) as [[i' b']|] eqn:E; simpl; [|done].
      intros [= <- <- <-]. apply enumerate1_lookup in E as [-> Hb].
      rewrite Nat.div_small, Nat.mod_small by done.
      repeat split; [lia | lia | done | lia].
    + rewrite lookup_app_r by lia. rewrite Hlen. intros Hl.
      destruct (decide (length dl = 0)%nat) as [H0|H0].
      { apply IH in Hl as (_ & _ & Hb & _). apply lookup_lt_Some in Hb. lia. }
      apply IH in Hl as (-> & -> & Hb & Hlt).
      destruct (div_mod_period n (length dl)) as [-> ->]; [done | lia |].
      repeat split; [lia | done | lia].
Qed.

Lemma schedule_lookup {Batch} (dl : list Batch) (start n e i : nat) (b : Batch) :
  schedule start dl !! n = Some (e, i, b) ->
  (e = start + n / length dl)%nat /\ (i = n mod length dl + 1)%nat
  /\ dl !! (n mod length dl)%nat = Some b /\ (e < num_epochs)%nat.
Proof.
  unfold schedule. intros Hl. apply epochs_lookup in Hl as (? & ? & ? & ?).
  repeat split; [done | done | done | lia].
Qed.

Lemma schedule_length {Batch} (dl : list Batch) (start : nat) :
  length (schedule start dl) = ((num_epochs - start) * length dl)%nat.
Proof.
  unfold schedule. generalize (num_epochs - start)%nat as count.
  intros count. revert start. induction count as [|count IH]; intros start; simpl.
  - done.
  - rewrite length_app, IH, length_fmap. unfold enumerate1.
    rewrite length_zip_with, length_seq. lia.
Qed.

Lemma schedule_Forall {Batch} (P : Batch -> Prop) (dl : list Batch)
    (start_epoch : nat) :
  Forall P dl ->
  Forall (fun it : nat * nat * Batch => P it.2) (schedule start_epoch dl).
Proof.
  intros Hall. apply Forall_lookup_2. intros n [[e i] b] Hl.
  apply schedule_lookup in Hl as (_ & _ & Hb & _).
  by apply (Forall_lookup_1 _ _ _ _ Hall Hb).
Qed.

Lemma override_spec (cfg : Config) (s : Z) (fixed : bool) :
  override cfg s = Ok fixed ->
  (fixed = true <-> (N_debug cfg | s) \/ (N_inference cfg | s)).
Proof.
  unfold override.
  destruct (at_cadence s (N_inference cfg)) as [[|]|] eqn:Ei; cbn [rbind];
    [| |discriminate].
  - intros [= <-]. apply at_cadence_true in Ei as [_ Hd]. tauto.
  - intros Hd. apply at_cadence_Ok in Ei as [Hni Hi].
    assert (~ (N_inference cfg | s)) as Hnot.
    { intros Hdiv. apply Z.mod_divide in Hdiv; [|done].
      rewrite Hdiv in Hi. discriminate. }
    destruct fixed.
    + apply at_cadence_true in Hd as [_ Hd]. tauto.
    + apply at_cadence_Ok in Hd as [Hnd Hd].
      split; [discriminate|]. intros [Hdiv|Hdiv]; [|done].
      apply Z.mod_divide in Hdiv; [|done]. rewrite Hdiv in Hd. discriminate.
Qed.

Lemma overridden_steps_debug_only (N_i N_s : Z) :
  40 < N_i -> overridden_steps (mkConfig 20 N_i N_s) (seqZ 1 40) = [20; 40].
Proof.
  intros Hi. unfold overridden_steps.
  rewrite (List.filter_ext_in _ (fun s => s mod 20 =? 0)); [reflexivity|].
  intros a Ha. apply list_elem_of_In, elem_of_seqZ in Ha.
  unfold override. cbn [N_inference N_debug].
  rewrite (at_cadence_nonzero a N_i) by lia.
  rewrite Z.mod_small by lia.
  destruct (Z.eqb_spec a 0) as [?|_]; [lia|]. cbn [rbind].
  rewrite at_cadence_nonzero by lia. by destruct (a mod 20 =? 0).
Qed.

Section LoopClaims.
Context {Model Optimizer Scheduler Scalar Rng Store : Type}.
Context (sizes : Sizes).
Context (patchify : Tensor Scalar -> Z -> result (Tensor Scalar)).
Context (rand : Rng -> nat -> list Q * Rng).
Context (forward_backward :
  Model -> Optimizer -> Scheduler ->
  list (Tensor Scalar * Tensor Scalar) -> list Q ->
  (Model * Optimizer * Scheduler) * (Q * LossTracker.float * LossTracker.float)).

Abbreviation Batch := (gmap string (Tensor Scalar)).
Context (save_checkpoint :
  Model -> Optimizer -> Scheduler -> Q -> nat -> Z -> Store -> Store).
Context (resume_checkpoint :
  Model -> Optimizer -> Scheduler -> Store ->
  result (Model * Optimizer * Scheduler * nat * Z)).

Abbreviation State := (TrainState Model Optimizer Scheduler Rng Store).
Abbreviation step := (train_step sizes patchify rand forward_backward save_checkpoint).
Abbreviation prep := (prepare sizes patchify).
Abbreviation run := (run_steps sizes patchify rand forward_backward save_checkpoint).
Abbreviation start := (startup resume_checkpoint).
Abbreviation training :=
  (train sizes patchify rand forward_backward save_checkpoint resume_checkpoint).

(** C2.  In a step whose counter value (after the increment) is a
    multiple of the debug cadence or of the inference cadence, every
    sample gets the timestep 0.7; otherwise the samples get the values
    drawn for them by [torch.rand], which lie in [0,1).  These are the
    timesteps the model is called with: the objects the step leaves are
    the ones [forward_backward] returns on them.  The decision is
    [override cfg step_counter], a function of the cadences and the
    counter alone; with a debug cadence of 20 and an inference cadence
    above 40 (the default is 200) the overridden steps among 1..40 are
    20 and 40. *)
Theorem timestep_override (cfg : Config) (epoch i : nat) (batch : Batch)
    (st st' : State) (log : StepLog)
    (text_and_images : list (Tensor Scalar * Tensor Scalar)) (n : nat) :
  step cfg epoch i batch st = Ok (st', log) ->
  prep batch = Ok (text_and_images, n) ->
  Forall (fun t => 0 <= t < 1)%Q (rand (rng st) n).1 ->
  ev_step log = step_counter st + 1
  /\ (((N_debug cfg | ev_step log) \/ (N_inference cfg | ev_step log)) ->
      ev_times log = replicate n timestep
      /\ exists loss text diffusion,
           forward_backward (model st) (optimizer st) (scheduler st)
             text_and_images (replicate n timestep)
           = ((model st', optimizer st', scheduler st'), (loss, text, diffusion)))
  /\ (~ ((N_debug cfg | ev_step log) \/ (N_inference cfg | ev_step log)) ->
      ev_times log = (rand (rng st) n).1
      /\ Forall (fun t => 0 <= t < 1)%Q (ev_times log)
      /\ exists loss text diffusion,
           forward_backward (model st) (optimizer st) (scheduler st)
             text_and_images (rand (rng st) n).1
           = ((model st', optimizer st', scheduler st'), (loss, text, diffusion)))
  /\ (exists fixed, override cfg (ev_step log) = Ok fixed
        /\ ev_times log = if fixed : bool
                          then replicate n timestep
                          else (rand (rng st) n).1)
  /\ (forall N_i N_s, 40 < N_i ->
        overridden_steps (mkConfig 20 N_i N_s) (seqZ 1 40) = [20; 40]).
Proof.
  intros Hstep Hprep Hrange.
  apply train_step_inv in Hstep
    as (_ & _ & _ & Hs
        & (fixed & tai & n' & loss & text & diff & Hp & Ho & Ht & Hfb) & _).
  rewrite Hprep in Hp. injection Hp as <- <-.
  rewrite Hs. pose proof (override_spec _ _ _ Ho) as Hspec.
  split; [done|]. split; [|split; [|split]].
  - intros Hm. apply Hspec in Hm. rewrite Hm in Ht. split; [done|].
    exists loss, text, diff. by rewrite <- Ht.
  - intros Hm. destruct fixed; [exfalso; apply Hm; by apply Hspec|].
    split; [done|]. split; [by rewrite Ht|].
    exists loss, text, diff. by rewrite <- Ht.
  - by exists fixed.
  - apply overridden_steps_debug_only.
Qed.

Lemma train_step_windows (cfg : Config) (epoch i : nat) (batch : Batch)
    (st st' : State) (log : StepLog) :
  step cfg epoch i batch st = Ok (st', log) ->
  exists text diffusion,
    text_loss_window st' = record (text_loss_window st) text
    /\ diffusion_loss_window st' = record (diffusion_loss_window st) diffusion
    /\ average (text_loss_window st') = Ok (ev_avg_text_loss log)
    /\ average (diffusion_loss_window st') = Ok (ev_avg_diffusion_loss log).
Proof.
  unfold train_step.
  destruct (prep batch) as [[tai n]|] eqn:Ep; cbn [rbind]; [|discriminate].
  destruct (rand (rng st) n) as [times g] eqn:Er.
  destruct (override cfg (step_counter st + 1)) as [fixed|] eqn:Eo;
    cbn [rbind]; [|discriminate].
  destruct (forward_backward _ _ _ _ _) as [[[m o] sc] [[loss text] diff]].
  destruct (average (record (text_loss_window st) text)) eqn:E1;
    cbn [rbind]; [|discriminate].
  destruct (average (record (diffusion_loss_window st) diff)) eqn:E2;
    cbn [rbind]; [|discriminate].
  destruct (at_cadence _ (N_debug cfg)); cbn [rbind]; [|discriminate].
  destruct (at_cadence _ (N_inference cfg)); cbn [rbind]; [|discriminate].
  destruct (at_cadence _ (N_save cfg)) as [sv|]; cbn [rbind]; [|discriminate].
  intros [= <- <-]. cbn. by exists text, diff.
Qed.

(** C9.  [average] raises only on a window nothing has been recorded
    into.  In the loop body both windows are recorded into before their
    averages are taken, so both hold at least one value there and both
    averages are returned; the exceptions a step can raise are those of
    the preparation of the model input (lines 176-186) and the division
    by a zero cadence, never the one of the averages: the empty-window
    branch is unreachable. *)
Theorem empty_window_unreachable :
  (forall w e, average w = Err e -> w = [])
  /\ (forall vs e, average (record_all vs) = Err e -> vs = [])
  /\ (forall w v, (1 <= length (record w v))%nat /\ is_Ok (average (record w v)))
  /\ (forall cfg epoch i batch (st : State) e,
        step cfg epoch i batch st = Err e ->
        e = ZeroDivisionError CadenceModulus \/ prep batch = Err e)
  /\ (forall cfg epoch i batch (st st' : State) log,
        step cfg epoch i batch st = Ok (st', log) ->
        (1 <= length (text_loss_window st'))%nat
        /\ (1 <= length (diffusion_loss_window st'))%nat
        /\ average (text_loss_window st') = Ok (ev_avg_text_loss log)
        /\ average (diffusion_loss_window st') = Ok (ev_avg_diffusion_loss log)).
Proof.
  assert (forall w e, average w = Err e -> w = []) as Hempty.
  { intros w e. unfold average. destruct w; [done | discriminate]. }
  assert (forall (w : list float) v, (1 <= length (record w v))%nat) as Hlen.
  { intros w v. pose proof (record_nonempty w v).
    destruct (record w v); [done | simpl; lia]. }
  split; [done|]. split; [|split; [|split]].
  - intros vs e He. apply Hempty in He.
    destruct vs as [|v vs _] using rev_ind; [done|].
    unfold record_all in He. rewrite fold_left_app in He. simpl in He.
    by apply record_nonempty in He.
  - intros w v. split; [done | apply average_record].
  - intros cfg epoch i batch st e. apply train_step_Err.
  - intros cfg epoch i batch st st' log Hstep.
    apply train_step_windows in Hstep as (t & d & Ht & Hd & Ha1 & Ha2).
    rewrite Ht, Hd in *. done.
Qed.

Lemma train_log_lookup (cfg : Config) (resume : bool) (dl : list Batch)
    (m : Model) (o : Optimizer) (sc : Scheduler) (g : Rng) (sto : Store)
    (start_epoch : nat) (st0 : State) (n : nat) (l : StepLog) :
  start resume m o sc g sto = Ok (start_epoch, st0) ->
  (training cfg resume dl m o sc g sto).1 !! n = Some l ->
  ev_step l = step_counter st0 + Z.of_nat n + 1
  /\ ev_epoch l = (start_epoch + n / length dl)%nat
  /\ ev_batch l = (n mod length dl + 1)%nat
  /\ at_cadence (ev_step l) (N_debug cfg) = Ok (ev_debug l)
  /\ at_cadence (ev_step l) (N_inference cfg) = Ok (ev_inference l)
  /\ at_cadence (ev_step l) (N_save cfg) = Ok (ev_save l)
  /\ exists batch st_n st',
       dl !! (n mod length dl)%nat = Some batch
       /\ (n = 0%nat -> st_n = st0)
       /\ step cfg (ev_epoch l) (ev_batch l) batch st_n = Ok (st', l).
Proof.
  intros Hstart. unfold train. rewrite Hstart. intros Hl.
  apply run_steps_lookup in Hl
    as (epoch & i & batch & st_n & st' & Hit & Hc & H0 & Hstep).
  apply schedule_lookup in Hit as (-> & -> & Hb & _).
  pose proof Hstep as Hinv.
  apply train_step_inv in Hinv
    as (_ & He & Hi & Hs & _ & Hd & Hinf & Hsv & _).
  rewrite Hc in *. rewrite <- Hs in *.
  repeat split; try done; try lia.
  exists batch, st_n, st'. by rewrite Hi, He.
Qed.

(** C8.  The counter a run starts from is 0 in a fresh run and the value
    [resume_checkpoint] returned in a resumed one; the [n]-th step of the
    run (counting from 0, across epoch boundaries) runs with the counter
    at that value plus [n + 1].  So the counter grows by exactly one per
    step, never decreases while the epoch advances, and the final state
    holds the start value plus the number of steps done. *)
Theorem step_counter_never_reset (cfg : Config) (resume : bool)
    (dl : list Batch) (m : Model) (o : Optimizer) (sc : Scheduler)
    (g : Rng) (sto : Store) :
  let s0 := match start resume m o sc g sto with
            | Ok (_, st0) => step_counter st0
            | Err _ => 0
            end in
  let r := training cfg resume dl m o sc g sto in
  (resume = false -> s0 = 0)
  /\ (forall m' o' sc' e c,
        resume = true ->
        resume_checkpoint m o sc sto = Ok (m', o', sc', e, c) -> s0 = c)
  /\ (forall n l, r.1 !! n = Some l -> ev_step l = s0 + Z.of_nat n + 1)
  /\ (forall n1 n2 l1 l2,
        (n1 <= n2)%nat -> r.1 !! n1 = Some l1 -> r.1 !! n2 = Some l2 ->
        ev_step l1 <= ev_step l2 /\ (ev_epoch l1 <= ev_epoch l2)%nat)
  /\ (forall st', r.2 = Ok st' ->
        step_counter st' = s0 + Z.of_nat (length r.1)).
Proof.
  intros s0 r. subst s0 r.
  split; [|split].
  - intros ->. done.
  - intros m' o' sc' e c -> Hres. unfold startup. by rewrite Hres.
  - destruct (start resume m o sc g sto) as [[start_epoch st0]|e] eqn:Hstart.
    + split; [|split].
      * intros n l Hl. by eapply train_log_lookup in Hl as (? & _).
      * intros n1 n2 l1 l2 Hle H1 H2.
        eapply train_log_lookup in H1 as (-> & -> & _); [|done].
        eapply train_log_lookup in H2 as (-> & -> & _); [|done].
        split; [lia|].
        pose proof (Nat.Div0.div_le_mono n1 n2 (length dl) Hle). lia.
      * intros st'. unfold train. rewrite Hstart. apply run_steps_final.
    + unfold train. rewrite Hstart. simpl. split; [|split].
      * intros n l. by rewrite lookup_nil.
      * intros n1 n2 l1 l2 _. by rewrite lookup_nil.
      * discriminate.
Qed.

Lemma at_cadence_first (N : Z) (b : bool) :
  1 < N -> at_cadence 1 N = Ok b -> b = false.
Proof.
  intros HN Hb. apply at_cadence_Ok in Hb as [_ ->].
  rewrite Z.mod_small by lia. done.
Qed.

(** C10.  In a fresh run the first processed batch runs with the counter
    at 1; when a cadence is greater than 1 its effect does not fire on
    that batch (no debug render, no inference barrier, no checkpoint,
    and, when both the debug and the inference cadence are, drawn
    timesteps).  For a positive save cadence no step before step
    [N_save] calls [save_checkpoint] and step [N_save] does, whenever the
    run reaches it: a fresh process that has completed fewer than
    [N_save] steps still has the store it started with, and one that has
    completed exactly [N_save] steps has the store that [save_checkpoint]
    returned for the objects, the epoch and the counter [N_save] of that
    step, applied to the initial store. *)
Theorem fresh_run_first_checkpoint (cfg : Config) (dl : list Batch)
    (m : Model) (o : Optimizer) (sc : Scheduler) (g : Rng) (sto : Store) :
  let logs := (training cfg false dl m o sc g sto).1 in
  (forall l, logs !! 0%nat = Some l ->
     ev_step l = 1 /\ ev_epoch l = 0%nat /\ ev_batch l = 1%nat
     /\ (1 < N_debug cfg -> ev_debug l = false)
     /\ (1 < N_inference cfg -> ev_inference l = false)
     /\ (1 < N_save cfg -> ev_save l = false)
     /\ (1 < N_debug cfg -> 1 < N_inference cfg ->
         exists batch text_and_images n,
           dl !! 0%nat = Some batch
           /\ prep batch = Ok (text_and_images, n)
           /\ ev_times l = (rand g n).1))
  /\ (0 < N_save cfg ->
      forall n l, logs !! n = Some l ->
        ev_step l = Z.of_nat n + 1
        /\ (ev_save l = true -> N_save cfg <= ev_step l)
        /\ (ev_step l = N_save cfg -> ev_save l = true))
  /\ (Forall (fun batch => is_Ok (prep batch)) dl ->
      N_debug cfg <> 0 -> N_inference cfg <> 0 -> 0 < N_save cfg ->
      N_save cfg <= Z.of_nat (num_epochs * length dl) ->
      exists l, logs !! (Z.to_nat (N_save cfg) - 1)%nat = Some l
                /\ ev_step l = N_save cfg /\ ev_save l = true)
  /\ (0 < N_save cfg ->
      forall k st_k,
        (train_killed sizes patchify rand forward_backward save_checkpoint
           resume_checkpoint k cfg false dl m o sc g sto).2 = Ok st_k ->
        (Z.of_nat k < N_save cfg -> store st_k = sto)
        /\ (Z.of_nat k = N_save cfg -> (k <= num_epochs * length dl)%nat ->
            exists loss,
              store st_k
              = save_checkpoint (model st_k) (optimizer st_k) (scheduler st_k)
                  loss ((k - 1) / length dl)%nat (N_save cfg) sto)).
Proof.
  intros logs. subst logs.
  assert (start false m o sc g sto
          = Ok (0%nat, mkTrainState m o sc g 0 [] [] sto)) as Hstart by done.
  assert (0 < N_save cfg ->
      forall n l, (training cfg false dl m o sc g sto).1 !! n = Some l ->
        ev_step l = Z.of_nat n + 1
        /\ (ev_save l = true -> N_save cfg <= ev_step l)
        /\ (ev_step l = N_save cfg -> ev_save l = true)) as Hsave.
  { intros Hpos n l Hl.
    eapply train_log_lookup in Hl as (Hs & _ & _ & _ & _ & Hsv & _); [|done].
    cbn in Hs. split; [lia|]. split.
    - intros Htrue. rewrite Htrue in Hsv.
      apply at_cadence_true in Hsv as [_ Hdiv].
      apply Z.divide_pos_le in Hdiv; lia.
    - intros Heq. apply at_cadence_Ok in Hsv as [Hne ->].
      rewrite Heq, Z_mod_same_full. done. }
  split; [|split; [done|split]].
  - intros l Hl.
    eapply train_log_lookup in Hl
      as (Hs & He & Hi & Hd & Hinf & Hsv & (batch & st_n & st' & Hb & H0 & Hstep));
      [|done].
    cbn in Hs. rewrite Hs in *. rewrite Nat.Div0.mod_0_l in *.
    split; [done|]. split; [rewrite He; by rewrite Nat.Div0.div_0_l|].
    split; [done|].
    split; [intros; by eapply at_cadence_first|].
    split; [intros; by eapply at_cadence_first|].
    split; [intros; by eapply at_cadence_first|].
    intros Hd1 Hi1. rewrite (H0 eq_refl) in Hstep.
    apply train_step_inv in Hstep
      as (_ & _ & _ & _ & (fixed & tai & n & ? & ? & ? & Hp & Ho & Ht & _) & _).
    exists batch, tai, n. split; [done|]. split; [done|].
    cbn in Ho, Ht. pose proof (override_spec _ _ _ Ho) as Hspec.
    destruct fixed; [|done].
    destruct (proj1 Hspec eq_refl) as [Hdiv|Hdiv];
      apply Z.divide_pos_le in Hdiv; lia.
  - intros Hprep Hd Hi Hpos Hlong.
    destruct (run_steps_total sizes patchify rand forward_backward save_checkpoint cfg
                (schedule 0 dl) (mkTrainState m o sc g 0 [] [] sto))
      as [Hlen _]; [exact (schedule_Forall (fun b => is_Ok (prep b)) dl 0 Hprep) | done | done | lia |].
    rewrite schedule_length in Hlen.
    destruct (lookup_lt_is_Some_2 (training cfg false dl m o sc g sto).1
                (Z.to_nat (N_save cfg) - 1)) as [l Hl].
    { unfold train. rewrite Hstart, Hlen. unfold num_epochs in *. lia. }
    exists l. split; [done|].
    destruct (Hsave Hpos _ _ Hl) as (Hs & _ & Hsv).
    assert (ev_step l = N_save cfg) as Heq by lia. auto.
  - intros Hpos k st_k. unfold train_killed. rewrite Hstart.
    set (st0 := mkTrainState m o sc g 0 [] [] sto). intros Hr. split.
    + intros Hk. change sto with (store st0).
      apply (no_save_before_cadence sizes patchify rand forward_backward
               save_checkpoint cfg (take k (schedule 0 dl)) st0 st_k Hr).
      * done.
      * rewrite length_take. cbn [step_counter st0]. lia.
    + intros Hk Hlong.
      assert (exists j, k = S j) as [j ->] by (exists (Nat.pred k); lia).
      destruct (lookup_lt_is_Some_2 (schedule 0 dl) j) as [[[epoch i] batch] Hit].
      { rewrite schedule_length. lia. }
      rewrite (take_S_r _ _ _ Hit), run_steps_app in Hr.
      destruct (run_steps sizes patchify rand forward_backward save_checkpoint cfg
                  (take j (schedule 0 dl)) st0).2 as [st1|] eqn:H1;
        [|discriminate].
      cbn [snd] in Hr. simpl in Hr.
      destruct (train_step sizes patchify rand forward_backward save_checkpoint
                  cfg epoch i batch st1) as [[st2 log]|] eqn:E; [|discriminate].
      simpl in Hr. injection Hr as ->.
      pose proof (no_save_before_cadence sizes patchify rand forward_backward
                    save_checkpoint cfg _ st0 st1 H1) as Hkeep.
      pose proof H1 as Hc1. apply run_steps_final in Hc1.
      pose proof H1 as Hl1. apply run_steps_Ok_length in Hl1.
      rewrite Hl1, length_take in Hc1.
      apply schedule_lookup in Hit as (-> & _ & _ & _).
      assert (j < length (schedule 0 dl))%nat as Hj
        by (rewrite schedule_length; lia).
      rewrite Nat.min_l in Hc1 by lia. cbn [step_counter st0] in Hc1.
      apply train_step_inv in E
        as (Hc & _ & _ & _ & _ & _ & _ & Hsv & _ & Hwrite).
      apply at_cadence_Ok in Hsv as [_ Hsv].
      rewrite Hc1 in Hsv, Hc.
      replace (0 + Z.of_nat j + 1) with (N_save cfg) in Hsv, Hc by lia.
      rewrite Z_mod_same_full in Hsv.
      destruct (Hwrite Hsv) as [loss Hstore]. exists loss.
      rewrite Hstore, Hc, Hkeep; [|done|rewrite length_take; cbn [step_counter st0]; lia].
      cbn [store st0]. do 2 f_equal. simpl. by rewrite Nat.sub_0_r.
Qed.

End LoopClaims.

(** Step 20 under the default cadences (debug 20, inference 200): both
    samples get 0.7, and the model is called with them. *)
Lemma timestep_override_step20 :
  Demo.step_from default_config 0 20 0 Demo.state19
  = Ok (Demo.state20, Demo.log20)
  /\ prepare Demo.sizes Demo.patchify (Demo.batch 0)
     = Ok ((Demo.prepared 0).1, 2%nat)
  /\ ev_step Demo.log20 = 20
  /\ ev_times Demo.log20 = replicate 2 timestep
  /\ exists loss text diffusion,
       Demo.forward_backward (model Demo.state19) (optimizer Demo.state19)
         (scheduler Demo.state19) (Demo.prepared 0).1 (replicate 2 timestep)
       = ((model Demo.state20, optimizer Demo.state20, scheduler Demo.state20),
          (loss, text, diffusion)).
Proof.
  assert (Demo.step_from default_config 0 20 0 Demo.state19
          = Ok (Demo.state20, Demo.log20)) as Hstep
    by (vm_compute; reflexivity).
  assert (prepare Demo.sizes Demo.patchify (Demo.batch 0)
          = Ok ((Demo.prepared 0).1, 2%nat)) as Hprep
    by (vm_compute; reflexivity).
  assert (Forall (fun t => 0 <= t < 1)%Q
            (Demo.rand (rng Demo.state19) 2).1) as Hrange.
  { cbn. repeat (apply Forall_cons; split; [split; [discriminate | reflexivity]|]).
    apply Forall_nil_2. }
  destruct (timestep_override Demo.sizes Demo.patchify Demo.rand
              Demo.forward_backward
              (CheckpointManager.save_checkpoint nat nat nat)
              default_config 0 20 (Demo.batch 0) Demo.state19
              Demo.state20 Demo.log20 (Demo.prepared 0).1 2%nat
              Hstep Hprep Hrange) as (Hs & Hfixed & _).
  split; [exact Hstep|]. split; [exact Hprep|].
  split; [rewrite Hs; reflexivity|].
  apply Hfixed. left. rewrite Hs. exists 1. reflexivity.
Defined.

(** A run resumed from a checkpoint written at epoch 2 with the counter
    at 350 counts 351, 352, ... *)
Lemma step_counter_never_reset_from_350 :
  exists l,
    (train Demo.sizes Demo.patchify Demo.rand Demo.forward_backward
       (CheckpointManager.save_checkpoint nat nat nat)
       (CheckpointManager.resume_checkpoint nat nat nat)
       default_config true Demo.dataloader 0%nat 0%nat 0%nat 0%nat
       Demo.store350).1 !! 2%nat = Some l
    /\ ev_epoch l = 3%nat /\ ev_batch l = 1%nat
    /\ ev_step l = 350 + Z.of_nat 2 + 1.
Proof.
  eexists. split; [vm_compute; reflexivity|].
  split; [reflexivity|]. split; [reflexivity|].
  apply (proj1 (proj2 (proj2
           (step_counter_never_reset Demo.sizes Demo.patchify Demo.rand Demo.forward_backward
              (CheckpointManager.save_checkpoint nat nat nat)
              (CheckpointManager.resume_checkpoint nat nat nat)
              default_config true Demo.dataloader 0%nat 0%nat 0%nat 0%nat
              Demo.store350))) 2%nat).
  vm_compute. reflexivity.
Defined.

(** After the first step of a fresh run both windows hold one value and
    both averages are reported. *)
Lemma empty_window_unreachable_first_step :
  (1 <= length (text_loss_window
                  (Demo.state_after default_config 0 1 0 Demo.state0)))%nat
  /\ (1 <= length (diffusion_loss_window
                     (Demo.state_after default_config 0 1 0 Demo.state0)))%nat
  /\ average (text_loss_window
                (Demo.state_after default_config 0 1 0 Demo.state0))
     = Ok (ev_avg_text_loss (Demo.log_after default_config 0 1 0 Demo.state0))
  /\ average (diffusion_loss_window
                (Demo.state_after default_config 0 1 0 Demo.state0))
     = Ok (ev_avg_diffusion_loss (Demo.log_after default_config 0 1 0 Demo.state0)).
Proof.
  apply (proj2 (proj2 (proj2 (proj2
           (empty_window_unreachable Demo.sizes Demo.patchify Demo.rand Demo.forward_backward
              (CheckpointManager.save_checkpoint nat nat nat)))))
           default_config 0%nat 1%nat (Demo.batch 0) Demo.state0).
  vm_compute. reflexivity.
Defined.

(** With a checkpoint every third step, the third step of a fresh run
    writes the first one: a process killed after two steps has an empty
    store, one killed after three has the checkpoint of epoch 1, step 3. *)
Lemma fresh_run_first_checkpoint_third :
  (exists l,
    (train Demo.sizes Demo.patchify Demo.rand Demo.forward_backward
       (CheckpointManager.save_checkpoint nat nat nat)
       (CheckpointManager.resume_checkpoint nat nat nat)
       Demo.save_every_third false Demo.dataloader 0%nat 0%nat 0%nat 0%nat
       Demo.empty_store).1 !! (Z.to_nat (N_save Demo.save_every_third) - 1)%nat
    = Some l
    /\ ev_step l = N_save Demo.save_every_third /\ ev_save l = true)
  /\ store (DemoRuns.killed_state Demo.save_every_third 2) = Demo.empty_store
  /\ exists loss,
       store (DemoRuns.killed_state Demo.save_every_third 3)
       = CheckpointManager.save_checkpoint nat nat nat
           (model (DemoRuns.killed_state Demo.save_every_third 3))
           (optimizer (DemoRuns.killed_state Demo.save_every_third 3))
           (scheduler (DemoRuns.killed_state Demo.save_every_third 3))
           loss 1%nat 3 Demo.empty_store.
Proof.
  destruct (fresh_run_first_checkpoint Demo.sizes Demo.patchify Demo.rand
              Demo.forward_backward
              (CheckpointManager.save_checkpoint nat nat nat)
              (CheckpointManager.resume_checkpoint nat nat nat)
              Demo.save_every_third Demo.dataloader 0%nat 0%nat 0%nat 0%nat
              Demo.empty_store) as (_ & _ & Hthird & Hstore).
  split; [|split].
  - apply Hthird; [|cbn; lia..].
    repeat (apply Forall_cons; split; [eexists; vm_compute; reflexivity|]).
    apply Forall_nil_2.
  - apply (Hstore ltac:(cbn; lia) 2%nat); [vm_compute; reflexivity | cbn; lia].
  - apply (Hstore ltac:(cbn; lia) 3%nat
             (DemoRuns.killed_state Demo.save_every_third 3));
      [vm_compute; reflexivity | reflexivity | cbn; lia].
Defined.

(** A dataloader batch that holds one cached shard where
    [cache_batch_size = 2] are expected: the reshape of line 177 raises,
    and a run with the default cadences completes no step. *)
Lemma short_batch_raises :
  prepare Demo.paired_sizes Demo.patchify (Demo.batch 0) = Err RuntimeError
  /\ run_steps Demo.paired_sizes Demo.patchify Demo.rand Demo.forward_backward
       (CheckpointManager.save_checkpoint nat nat nat)
       default_config (schedule 0 Demo.dataloader) Demo.state0
     = ([], Err RuntimeError).
Proof. split; vm_compute; reflexivity. Qed.

End TrainingLoopFacts.

Module LatentCacheFacts.
Import LatentCache.
Local Open Scope nat_scope.

Lemma string_length_app (s t : string) :
  String.length (s +:+ t) = String.length s + String.length t.
Proof.
  induction s as [|a s IH]; [done|].
  change (String a s +:+ t) with (String a (s +:+ t)). simpl. by rewrite IH.
Qed.

Lemma string_app_inj_r (t s1 s2 : string) : s1 +:+ t = s2 +:+ t -> s1 = s2.
Proof.
  revert s2. induction s1 as [|a s1 IH]; intros [|b s2] Heq.
  - done.
  - apply (f_equal String.length) in Heq.
    rewrite !string_length_app in Heq. simpl in Heq. lia.
  - apply (f_equal String.length) in Heq.
    rewrite !string_length_app in Heq. simpl in Heq. lia.
  - change (String a (s1 +:+ t) = String b (s2 +:+ t)) in Heq.
    injection Heq as -> Heq. f_equal. by apply IH.
Qed.

Lemma cache_file_inj (batch_size : Z) (i j : nat) :
  cache_file batch_size i = cache_file batch_size j -> i = j.
Proof.
  unfold cache_file. intros Heq.
  do 3 apply (inj (String.app _)) in Heq.
  apply string_app_inj_r in Heq. by apply (inj pretty) in Heq.
Qed.

Section BuildFacts.
Context {Value : Type} (vae_encode_batch : Value -> Value).

Abbreviation BatchDict := (gmap string Value).
Abbreviation Directory := (gmap string (gmap string Value)).

Lemma encode_batch_Ok (batch : BatchDict) :
  is_Some (batch !! "pixel_values") ->
  exists pixel_values,
    batch !! "pixel_values" = Some pixel_values
    /\ encode_batch Value vae_encode_batch batch
       = Ok (delete "pixel_values"
               (<["image_latents" := vae_encode_batch pixel_values]> batch)).
Proof.
  intros [px Hpx]. exists px. split; [done|].
  unfold encode_batch. by rewrite Hpx.
Qed.

(** The loop writes one file per batch, encodes once per batch, and
    touches no other file. *)
Lemma cache_batches_spec (batch_size : Z) (loader : list BatchDict) :
  Forall (fun batch : BatchDict => is_Some (batch !! "pixel_values")) loader ->
  forall (i : nat) (dir : Directory) (n : nat),
  exists dir',
    cache_batches Value vae_encode_batch batch_size i loader dir n
    = Ok (dir', n + length loader)
    /\ (forall k batch, loader !! k = Some batch ->
          exists shard,
            encode_batch Value vae_encode_batch batch = Ok shard
            /\ dir' !! cache_file batch_size (i + k) = Some shard)
    /\ (forall f, (forall k, k < length loader -> f <> cache_file batch_size (i + k)) ->
          dir' !! f = dir !! f).
Proof.
  induction 1 as [|batch loader Hpx _ IH]; intros i dir n; simpl.
  - exists dir. split; [f_equal; f_equal; lia|]. split; [|done].
    intros k b. by rewrite lookup_nil.
  - destruct (encode_batch_Ok batch Hpx) as (px & _ & Henc).
    rewrite Henc. cbn [rbind].
    destruct (IH (S i)
                (<[cache_file batch_size i :=
                     delete "pixel_values"
                       (<["image_latents" := vae_encode_batch px]> batch)]> dir)
                (S n)) as (dir' & -> & Hfiles & Hother).
    exists dir'. split; [f_equal; f_equal; lia|]. split.
    + intros [|k] b Hb; simpl in Hb.
      * injection Hb as <-. eexists. split; [done|].
        rewrite Hother.
        -- rewrite Nat.add_0_r. apply lookup_insert_eq.
        -- intros k _ Heq. apply cache_file_inj in Heq. lia.
      * destruct (Hfiles k b Hb) as (shard & Hs & Hl).
        exists shard. split; [done|].
        by replace (i + S k) with (S i + k) by lia.
    + intros f Hf. rewrite Hother.
      * apply lookup_insert_ne. specialize (Hf 0). rewrite Nat.add_0_r in Hf.
        intros Heq. apply Hf; [lia | done].
      * intros k Hk. replace (S i + k) with (i + S k) by lia. apply Hf. lia.
Qed.

Lemma length_listdir (d : option Directory) :
  length (listdir Value d) = size (default ∅ d).
Proof. unfold listdir. by rewrite length_fmap, length_map_to_list. Qed.

Lemma build_skip (batch_size : Z) (loader : list BatchDict)
    (st : CacheState Value) (dir : Directory) :
  cache_dir Value st = Some dir -> dir <> ∅ ->
  build Value vae_encode_batch false batch_size loader st = Ok st.
Proof.
  intros Hdir Hne. unfold build, makedirs. rewrite Hdir, length_listdir.
  apply map_size_non_empty_iff, Nat.eqb_neq in Hne.
  change (default ∅ (Some (default ∅ (Some dir)))) with dir. rewrite Hne.
  cbn. destruct st as [d n]. cbn in *. by subst d.
Qed.

(** C4.  When the cache directory already holds files and [--cache] is
    not given, the build step is skipped: no encoder invocation is added
    and the directory, hence every shard file in it, is left as it was;
    invoking the build again changes nothing either. *)
Theorem build_idempotent_on_populated (batch_size : Z)
    (loader : list BatchDict) (st : CacheState Value) (dir : Directory) :
  cache_dir Value st = Some dir -> dir <> ∅ ->
  build Value vae_encode_batch false batch_size loader st = Ok st
  /\ (let* st1 := build Value vae_encode_batch false batch_size loader st in
      build Value vae_encode_batch false batch_size loader st1) = Ok st.
Proof.
  intros Hdir Hne. pose proof (build_skip batch_size loader st dir Hdir Hne) as Hb.
  split; [done|]. rewrite Hb. cbn [rbind]. done.
Qed.

(** C5, as the code has it.  A cache directory that holds any file is
    used as it is when [--cache] is not given, whether or not its shard
    set is complete: nothing is encoded and nothing is written.  When the
    directory is absent or empty, or [--cache] is given, every batch of
    the dataset is encoded and written, so the shard set is complete
    afterwards; files that are not shards of this run are not touched. *)
Theorem build_rebuilds_only_when_empty_or_forced (batch_size : Z)
    (loader : list BatchDict) (st : CacheState Value) :
  (forall dir, cache_dir Value st = Some dir -> dir <> ∅ ->
     build Value vae_encode_batch false batch_size loader st = Ok st)
  /\ (forall force,
       force = true \/ cache_dir Value st = None \/ cache_dir Value st = Some ∅ ->
       Forall (fun batch : BatchDict => is_Some (batch !! "pixel_values")) loader ->
       exists dir',
         build Value vae_encode_batch force batch_size loader st
         = Ok (mkCacheState Value (Some dir') (encodes Value st + length loader))
         /\ complete Value batch_size (length loader) dir'
         /\ forall k batch, loader !! k = Some batch ->
              exists shard,
                encode_batch Value vae_encode_batch batch = Ok shard
                /\ dir' !! cache_file batch_size k = Some shard).
Proof.
  split; [apply build_skip|].
  intros force Hforce Hpx. unfold build. rewrite length_listdir.
  assert (force || negb (path_exists Value (makedirs Value (cache_dir Value st)))
          || (size (default ∅ (makedirs Value (cache_dir Value st))) =? 0)
          = true) as ->.
  { destruct Hforce as [-> | [-> | ->]]; [done| |];
      cbn; rewrite map_size_empty; by destruct force. }
  destruct (cache_batches_spec batch_size loader Hpx 0
              (default ∅ (makedirs Value (cache_dir Value st))) (encodes Value st))
    as (dir' & -> & Hfiles & _).
  cbn. exists dir'. split; [done|]. split; [|done].
  intros i Hi. destruct (lookup_lt_is_Some_2 loader i Hi) as [b Hb].
  destruct (Hfiles i b Hb) as (shard & _ & Hl). by exists shard.
Qed.

End BuildFacts.

(** A directory holding only the first of two shards, without [--cache]. *)
Lemma build_idempotent_on_partial_demo :
  build nat demo_encode false 4 demo_loader partial_cache = Ok partial_cache
  /\ (let* st1 := build nat demo_encode false 4 demo_loader partial_cache in
      build nat demo_encode false 4 demo_loader st1) = Ok partial_cache.
Proof.
  apply (build_idempotent_on_populated demo_encode 4 demo_loader
           partial_cache partial_dir).
  - reflexivity.
  - apply insert_non_empty.
Defined.

(** C5 fails on the code: with the first of two shards on disk and no
    [--cache], the shard set is incomplete, yet the build does nothing
    and the set stays incomplete. *)
Lemma incomplete_cache_is_kept :
  is_Some (partial_dir !! cache_file 4 0)
  /\ partial_dir !! cache_file 4 1 = None
  /\ ~ complete nat 4 (length demo_loader) partial_dir
  /\ build nat demo_encode false 4 demo_loader partial_cache = Ok partial_cache
  /\ ~ (forall st', build nat demo_encode false 4 demo_loader partial_cache = Ok st' ->
         exists dir', cache_dir nat st' = Some dir'
                      /\ complete nat 4 (length demo_loader) dir').
Proof.
  assert (partial_dir !! cache_file 4 1 = None) as Hnone by (vm_compute; reflexivity).
  assert (~ complete nat 4 (length demo_loader) partial_dir) as Hinc.
  { intros Hc. destruct (Hc 1%nat) as [x Hx]; [simpl; lia|].
    rewrite Hnone in Hx. discriminate Hx. }
  assert (build nat demo_encode false 4 demo_loader partial_cache = Ok partial_cache)
    as Hb by (vm_compute; reflexivity).
  split; [unfold partial_dir; rewrite lookup_insert_eq; eexists; reflexivity|].
  split; [exact Hnone|]. split; [exact Hinc|]. split; [exact Hb|].
  intros Hall. destruct (Hall _ Hb) as (dir' & Hd & Hc).
  cbn in Hd. injection Hd as <-. exact (Hinc Hc).
Qed.

(** An empty cache directory is filled with both shards. *)
Lemma build_fills_empty_demo :
  exists dir',
    build nat demo_encode false 4 demo_loader (mkCacheState nat None 0)
    = Ok (mkCacheState nat (Some dir') (0 + length demo_loader))
    /\ complete nat 4 (length demo_loader) dir'
    /\ forall k batch, demo_loader !! k = Some batch ->
         exists shard,
           encode_batch nat demo_encode batch = Ok shard
           /\ dir' !! cache_file 4 k = Some shard.
Proof.
  apply (proj2 (build_rebuilds_only_when_empty_or_forced demo_encode 4
                  demo_loader (mkCacheState nat None 0)) false).
  - right. left. reflexivity.
  - unfold demo_loader, demo_batch.
    repeat (apply Forall_cons; split;
            [rewrite lookup_insert_ne by discriminate;
             rewrite lookup_insert_eq; eexists; reflexivity|]).
    apply Forall_nil_2.
Defined.

End LatentCacheFacts.

Module ResumptionFacts.
Import PatchCodec TrainingLoop TrainingLoopFacts Resumption.

Section RestartFacts.
Context {Model Optimizer Scheduler Scalar Rng : Type}.
Context (sizes : Sizes).
Context (patchify : Tensor Scalar -> Z -> result (Tensor Scalar)).
Context (rand : Rng -> nat -> list Q * Rng).
Context (forward_backward :
  Model -> Optimizer -> Scheduler ->
  list (Tensor Scalar * Tensor Scalar) -> list Q ->
  (Model * Optimizer * Scheduler) * (Q * LossTracker.float * LossTracker.float)).

Abbreviation Batch := (gmap string (Tensor Scalar)).

Abbreviation Store := (CheckpointManager.Store Model Optimizer Scheduler).
Abbreviation save := (CheckpointManager.save_checkpoint Model Optimizer Scheduler).
Abbreviation restore := (CheckpointManager.resume_checkpoint Model Optimizer Scheduler).

(** C3, as the code has it.  After a step at epoch [epoch] that wrote a
    checkpoint, a process started with [--resume] on that store enters
    the loops with the saved model, optimizer and scheduler, with
    [start_epoch = epoch] and with the saved counter value; its [n]-th
    step runs batch [n mod L + 1] of epoch [epoch + n / L] with the
    counter at the saved value plus [n + 1].  It therefore starts again
    at the first batch of the saved epoch, and its counter values follow
    the saved one without gap or repetition. *)
Theorem resume_restarts_saved_epoch (cfg cfg' : Config) (epoch i : nat)
    (batch : Batch)
    (st st' : TrainState Model Optimizer Scheduler Rng Store)
    (log : StepLog) (dl : list Batch)
    (m : Model) (o : Optimizer) (sc : Scheduler) (g : Rng) :
  train_step sizes patchify rand forward_backward save cfg epoch i batch st = Ok (st', log) ->
  ev_save log = true ->
  startup restore true m o sc g (store st')
  = Ok (epoch,
        mkTrainState (model st') (optimizer st') (scheduler st') g
          (step_counter st') [] [] (store st'))
  /\ forall n l,
       (run_train sizes patchify rand forward_backward cfg' true dl m o sc g (store st')).1
         !! n = Some l ->
       ev_step l = step_counter st' + Z.of_nat n + 1
       /\ ev_epoch l = (epoch + n / length dl)%nat
       /\ ev_batch l = (n mod length dl + 1)%nat.
Proof.
  intros Hstep Hsave.
  apply train_step_inv in Hstep as (_ & _ & _ & _ & _ & _ & _ & _ & _ & Hst).
  destruct (Hst Hsave) as [loss Hstore].
  assert (startup restore true m o sc g (store st')
          = Ok (epoch,
                mkTrainState (model st') (optimizer st') (scheduler st') g
                  (step_counter st') [] [] (store st'))) as Hstart.
  { unfold startup. rewrite Hstore at 1. reflexivity. }
  split; [done|]. intros n l Hl. unfold run_train in Hl.
  eapply train_log_lookup in Hl as (Hs & He & Hi & _); [|exact Hstart].
  done.
Qed.

End RestartFacts.

(** The first step of the two-batch demo, saving every step, and the
    restart from its checkpoint. *)
Lemma resume_restarts_saved_epoch_demo :
  startup (CheckpointManager.resume_checkpoint nat nat nat) true
    0%nat 0%nat 0%nat 0%nat
    (store (Demo.state_after Demo.save_every_step 0 1 0 Demo.state0))
  = Ok (0%nat,
        mkTrainState
          (model (Demo.state_after Demo.save_every_step 0 1 0 Demo.state0))
          (optimizer (Demo.state_after Demo.save_every_step 0 1 0 Demo.state0))
          (scheduler (Demo.state_after Demo.save_every_step 0 1 0 Demo.state0))
          0%nat
          (step_counter (Demo.state_after Demo.save_every_step 0 1 0 Demo.state0))
          [] []
          (store (Demo.state_after Demo.save_every_step 0 1 0 Demo.state0)))
  /\ forall n l,
       (run_train Demo.sizes Demo.patchify Demo.rand Demo.forward_backward Demo.save_every_step
          true Demo.dataloader 0%nat 0%nat 0%nat 0%nat
          (store (Demo.state_after Demo.save_every_step 0 1 0 Demo.state0))).1
         !! n = Some l ->
       ev_step l
       = step_counter (Demo.state_after Demo.save_every_step 0 1 0 Demo.state0)
         + Z.of_nat n + 1
       /\ ev_epoch l = (0 + n / length Demo.dataloader)%nat
       /\ ev_batch l = (n mod length Demo.dataloader + 1)%nat.
Proof.
  apply (resume_restarts_saved_epoch Demo.sizes Demo.patchify Demo.rand Demo.forward_backward
           Demo.save_every_step Demo.save_every_step 0 1 (Demo.batch 0) Demo.state0
           (Demo.state_after Demo.save_every_step 0 1 0 Demo.state0)
           (Demo.log_after Demo.save_every_step 0 1 0 Demo.state0)).
  - vm_compute. reflexivity.
  - vm_compute. reflexivity.
Defined.

(** C3 fails on the code: two batches per epoch, a checkpoint after every
    step, the process killed after the first step of epoch 0.  The
    uninterrupted run goes on with batch 2 of epoch 0 at counter 2; the
    restarted one runs batch 1 of epoch 0 again, at counter 2. *)
Lemma resume_repeats_batches :
  killed_after_save Demo.sizes Demo.patchify Demo.rand Demo.forward_backward 1
    Demo.save_every_step Demo.dataloader 0%nat 0%nat 0%nat 0%nat Demo.empty_store
  /\ head (trace (run_train Demo.sizes Demo.patchify Demo.rand Demo.forward_backward
                    Demo.save_every_step false Demo.dataloader
                    0%nat 0%nat 0%nat 0%nat Demo.empty_store).1)
     = Some (0%nat, 1%nat, 1)
  /\ head (trace (drop 1 (run_train Demo.sizes Demo.patchify Demo.rand Demo.forward_backward
                            Demo.save_every_step false Demo.dataloader
                            0%nat 0%nat 0%nat 0%nat Demo.empty_store).1))
     = Some (0%nat, 2%nat, 2)
  /\ head (trace (restart_after Demo.sizes Demo.patchify Demo.rand Demo.forward_backward 1
                    Demo.save_every_step Demo.dataloader
                    0%nat 0%nat 0%nat 0%nat Demo.empty_store).1)
     = Some (0%nat, 1%nat, 2)
  /\ ~ continues_as_uninterrupted Demo.sizes Demo.patchify Demo.rand Demo.forward_backward 1
        Demo.save_every_step Demo.dataloader 0%nat 0%nat 0%nat 0%nat
        Demo.empty_store.
Proof.
  split.
  { eexists. split; vm_compute; reflexivity. }
  split; [vm_compute; reflexivity|].
  split; [vm_compute; reflexivity|].
  split; [vm_compute; reflexivity|].
  unfold continues_as_uninterrupted. intros Heq.
  apply (f_equal head) in Heq. vm_compute in Heq. discriminate Heq.
Qed.

End ResumptionFacts.

(** * Further properties of the training loop *)

Module TrainingLoopMore.
Import PatchCodec LossTracker LossTrackerFacts TrainingLoop TrainingLoopFacts.

Lemma at_cadence_opp (s N : Z) : at_cadence s (- N) = at_cadence s N.
Proof.
  destruct (Z.eq_dec N 0) as [->|HN]; [done|].
  rewrite !at_cadence_nonzero by lia. f_equal.
  destruct (Z.eqb_spec (s mod N) 0) as [H0|H0].
  - apply Z.eqb_eq. apply Z.mod_divide; [lia|].
    apply Z.divide_opp_l, Z.mod_divide; done.
  - apply Z.eqb_neq. intros Hm. apply H0.
    apply Z.mod_divide; [done|]. apply Z.divide_opp_l, Z.mod_divide; [lia|done].
Qed.

Lemma override_or (cfg : Config) (s : Z) (fixed debug inference : bool) :
  override cfg s = Ok fixed ->
  at_cadence s (N_debug cfg) = Ok debug ->
  at_cadence s (N_inference cfg) = Ok inference ->
  fixed = inference || debug.
Proof.
  unfold override. intros Ho Hd Hi. rewrite Hi in Ho. cbn [rbind] in Ho.
  destruct inference; [by injection Ho as <-|].
  rewrite Hd in Ho. by injection Ho as <-.
Qed.

Lemma length_record {A} (w : list A) (v : A) :
  (length w <= N_loss_window)%nat ->
  length (record w v) = Nat.min (length w + 1) N_loss_window.
Proof.
  intros Hle. unfold record. rewrite length_app. simpl.
  destruct (N_loss_window <? length w + 1)%nat eqn:E.
  - apply Nat.ltb_lt in E. rewrite tail_drop, length_drop, length_app. simpl. lia.
  - apply Nat.ltb_ge in E. rewrite length_app. simpl. lia.
Qed.

Lemma schedule_positions {Batch} (dl : list Batch) (start_epoch : nat) :
  (fun it : nat * nat * Batch => (it.1.1, it.1.2)) <$> schedule start_epoch dl
  = flat_map (fun e => (fun i => (e, i)) <$> seq 1 (length dl))
      (seq start_epoch (10 - start_epoch)).
Proof.
  unfold schedule. change num_epochs with 10%nat.
  generalize (10 - start_epoch)%nat as count. intros count.
  revert start_epoch. induction count as [|count IH]; intros e; simpl; [done|].
  rewrite fmap_app, IH. f_equal.
  rewrite <- list_fmap_compose. unfold enumerate1.
  rewrite <- (fst_zip (seq 1 (length dl)) dl) at 2 by (rewrite length_seq; lia).
  rewrite <- list_fmap_compose. done.
Qed.

Section MoreLoop.
Context {Model Optimizer Scheduler Scalar Rng Store : Type}.
Context (sizes : Sizes).
Context (patchify : Tensor Scalar -> Z -> result (Tensor Scalar)).
Context (rand : Rng -> nat -> list Q * Rng).
Context (forward_backward :
  Model -> Optimizer -> Scheduler ->
  list (Tensor Scalar * Tensor Scalar) -> list Q ->
  (Model * Optimizer * Scheduler) * (Q * LossTracker.float * LossTracker.float)).

Abbreviation Batch := (gmap string (Tensor Scalar)).
Context (save_checkpoint :
  Model -> Optimizer -> Scheduler -> Q -> nat -> Z -> Store -> Store).
Context (resume_checkpoint :
  Model -> Optimizer -> Scheduler -> Store ->
  result (Model * Optimizer * Scheduler * nat * Z)).

Abbreviation State := (TrainState Model Optimizer Scheduler Rng Store).
Abbreviation step := (train_step sizes patchify rand forward_backward save_checkpoint).
Abbreviation prep := (prepare sizes patchify).
Abbreviation run := (run_steps sizes patchify rand forward_backward save_checkpoint).
Abbreviation start := (startup resume_checkpoint).
Abbreviation training :=
  (train sizes patchify rand forward_backward save_checkpoint resume_checkpoint).

(** X1.  A step completes exactly when the preparation of the model
    input (lines 176-186) succeeds and none of the three cadences is
    zero.  With a zero cadence the very first iteration of a run raises
    (the exception of the preparation if that fails, the division by
    zero otherwise), so the run completes no step at all. *)
Theorem step_completes_iff_cadences_nonzero (cfg : Config) :
  (forall epoch i batch (st : State),
     is_Ok (step cfg epoch i batch st)
     <-> is_Ok (prep batch)
         /\ N_debug cfg <> 0 /\ N_inference cfg <> 0 /\ N_save cfg <> 0)
  /\ (forall epoch i batch its (st : State),
       N_debug cfg = 0 \/ N_inference cfg = 0 \/ N_save cfg = 0 ->
       (run cfg ((epoch, i, batch) :: its) st).1 = []
       /\ (run cfg ((epoch, i, batch) :: its) st).2
          = Err (match prep batch with
                 | Err e => e
                 | Ok _ => ZeroDivisionError CadenceModulus
                 end)).
Proof.
  assert (forall epoch i batch (st : State),
     is_Ok (step cfg epoch i batch st)
     <-> is_Ok (prep batch)
         /\ N_debug cfg <> 0 /\ N_inference cfg <> 0 /\ N_save cfg <> 0) as Hiff.
  { intros epoch i batch st. split.
    - intros [[st' log] Hok].
      apply train_step_inv in Hok
        as (_ & _ & _ & _ & (? & tai & n & ? & ? & ? & Hp & _) & Hd & Hi & Hs & _).
      apply at_cadence_Ok in Hd as [Hd _], Hi as [Hi _], Hs as [Hs _].
      split; [by eexists | done].
    - intros (Hp & Hd & Hi & Hs). by apply train_step_total. }
  split; [done|].
  intros epoch i batch its st Hzero.
  simpl. destruct (step cfg epoch i batch st) as [[st' log]|e] eqn:E.
  - assert (is_Ok (step cfg epoch i batch st)) as Hok by (by eexists).
    apply Hiff in Hok. lia.
  - simpl. split; [done|]. f_equal.
    destruct (prep batch) as [r|e0] eqn:Ep.
    + apply train_step_Err in E as [-> | E]; [done|]. rewrite Ep in E. discriminate E.
    + unfold train_step in E. rewrite Ep in E. cbn [rbind] in E.
      by injection E as <-.
Qed.

(** X2.  In a completed step the timesteps handed to the model are all
    0.7 whenever the debug renderer or the inference barrier fires in
    that step, and are the drawn values whenever neither does: the
    override test of line 188 and the two diagnostic tests of lines 220
    and 228 agree.  The model is called on the prepared pairs with these
    timesteps, and the step leaves the objects that call returns. *)
Theorem diagnostics_use_fixed_timestep (cfg : Config) (epoch i : nat)
    (batch : Batch) (st st' : State) (log : StepLog)
    (text_and_images : list (Tensor Scalar * Tensor Scalar)) (n : nat) :
  step cfg epoch i batch st = Ok (st', log) ->
  prep batch = Ok (text_and_images, n) ->
  (ev_debug log || ev_inference log = true ->
   ev_times log = replicate n timestep)
  /\ (ev_debug log || ev_inference log = false ->
      ev_times log = (rand (rng st) n).1)
  /\ (exists loss text diffusion,
        forward_backward (model st) (optimizer st) (scheduler st)
          text_and_images (ev_times log)
        = ((model st', optimizer st', scheduler st'), (loss, text, diffusion))).
Proof.
  intros Hstep Hprep.
  apply train_step_inv in Hstep
    as (_ & _ & _ & _
        & (fixed & tai & n' & loss & text & diff & Hp & Ho & Ht & Hfb)
        & Hd & Hi & _).
  rewrite Hprep in Hp. injection Hp as <- <-.
  rewrite (override_or _ _ _ _ _ Ho Hd Hi) in Ht.
  split; [|split].
  - destruct (ev_debug log), (ev_inference log); cbn in *; done.
  - destruct (ev_debug log), (ev_inference log); cbn in *; done.
  - by exists loss, text, diff.
Qed.

(** X3.  Only the absolute values of the cadences matter: a step under
    negated cadences returns what it returns under the original ones. *)
Theorem negative_cadences_act_as_positive (cfg : Config) (epoch i : nat)
    (batch : Batch) (st : State) :
  step (mkConfig (- N_debug cfg) (- N_inference cfg) (- N_save cfg))
    epoch i batch st
  = step cfg epoch i batch st.
Proof.
  unfold train_step, override. cbn [N_debug N_inference N_save].
  by rewrite !at_cadence_opp.
Qed.

(** X4.  Checkpoints are written on the save cadence only: when no
    completed step of a run had its save test succeed, the store at the
    end of the run is the store it started with. *)
Theorem store_untouched_without_save (cfg : Config)
    (its : list (nat * nat * Batch)) (st st' : State) :
  (run cfg its st).2 = Ok st' ->
  Forall (fun l => ev_save l = false) (run cfg its st).1 ->
  store st' = store st.
Proof.
  revert st. induction its as [|[[epoch i] batch] its IH]; intros st; simpl.
  - by intros [= <-].
  - destruct (step cfg epoch i batch st) as [[st1 log]|e] eqn:E; simpl;
      [|discriminate].
    intros Hr Hall. apply Forall_cons in Hall as [Hlog Hall].
    rewrite (IH st1 Hr Hall).
    apply train_step_inv in E as (_ & _ & _ & _ & _ & _ & _ & _ & Hkeep & _).
    by apply Hkeep.
Qed.

Lemma run_steps_positions (cfg : Config) (its : list (nat * nat * Batch))
    (st : State) :
  Forall (fun it : nat * nat * Batch => is_Ok (prep it.2)) its ->
  N_debug cfg <> 0 -> N_inference cfg <> 0 -> N_save cfg <> 0 ->
  (fun l => (ev_epoch l, ev_batch l)) <$> (run cfg its st).1
  = (fun it : nat * nat * Batch => (it.1.1, it.1.2)) <$> its.
Proof.
  intros Hprep Hd Hi Hs. revert st.
  induction Hprep as [|[[epoch i] batch] its Hp _ IH]; intros st; simpl; [done|].
  destruct (train_step_total sizes patchify rand forward_backward save_checkpoint
              cfg epoch i batch st Hp Hd Hi Hs) as [[st1 log] E].
  rewrite E. simpl. rewrite IH.
  apply train_step_inv in E as (_ & -> & -> & _). done.
Qed.

Lemma run_steps_windows (cfg : Config) (its : list (nat * nat * Batch))
    (st st' : State) :
  (run cfg its st).2 = Ok st' ->
  (length (text_loss_window st) <= N_loss_window)%nat ->
  (length (diffusion_loss_window st) <= N_loss_window)%nat ->
  length (text_loss_window st')
  = Nat.min (length (text_loss_window st) + length (run cfg its st).1)
      N_loss_window
  /\ length (diffusion_loss_window st')
     = Nat.min (length (diffusion_loss_window st) + length (run cfg its st).1)
         N_loss_window.
Proof.
  revert st. induction its as [|[[epoch i] batch] its IH]; intros st; simpl.
  - intros [= <-] Ht Hd. lia.
  - destruct (step cfg epoch i batch st) as [[st1 log]|e] eqn:E; simpl;
      [|discriminate].
    intros Hr Ht Hd.
    apply train_step_windows in E as (t & d & Hwt & Hwd & _).
    pose proof (length_record (text_loss_window st) t Ht) as Hlt.
    pose proof (length_record (diffusion_loss_window st) d Hd) as Hld.
    rewrite <- Hwt in Hlt. rewrite <- Hwd in Hld.
    destruct (IH st1 Hr) as [-> ->]; lia.
Qed.

Lemma startup_windows (resume : bool) (m : Model) (o : Optimizer)
    (sc : Scheduler) (g : Rng) (sto : Store) (e : nat) (st0 : State) :
  start resume m o sc g sto = Ok (e, st0) ->
  text_loss_window st0 = [] /\ diffusion_loss_window st0 = [].
Proof.
  unfold startup.
  destruct (if resume then resume_checkpoint m o sc sto else _)
    as [[[[[m' o'] sc'] e'] c']|]; cbn [rbind]; [|discriminate].
  by intros [= <- <-].
Qed.

(** X5.  When no cadence is zero and the input of every batch of the
    dataloader can be prepared, a run that enters the loops at
    [start_epoch] processes every batch of the dataloader once per epoch,
    in order, for the epochs [start_epoch .. 9]; it ends normally, and its
    counter has advanced by [(10 - start_epoch) * len(dataloader)]. *)
Theorem full_run_visits_every_batch (cfg : Config) (resume : bool)
    (dl : list Batch) (m : Model) (o : Optimizer) (sc : Scheduler)
    (g : Rng) (sto : Store) (start_epoch : nat) (st0 : State) :
  start resume m o sc g sto = Ok (start_epoch, st0) ->
  Forall (fun batch => is_Ok (prep batch)) dl ->
  N_debug cfg <> 0 -> N_inference cfg <> 0 -> N_save cfg <> 0 ->
  (fun l => (ev_epoch l, ev_batch l)) <$> (training cfg resume dl m o sc g sto).1
  = flat_map (fun e => (fun i => (e, i)) <$> seq 1 (length dl))
      (seq start_epoch (10 - start_epoch))
  /\ exists st',
       (training cfg resume dl m o sc g sto).2 = Ok st'
       /\ step_counter st'
          = step_counter st0 + Z.of_nat ((10 - start_epoch) * length dl).
Proof.
  intros Hstart Hprep Hd Hi Hs. unfold train. rewrite Hstart.
  pose proof (schedule_Forall (fun b => is_Ok (prep b)) dl start_epoch Hprep)
    as Hall.
  rewrite run_steps_positions by done. split.
  - apply schedule_positions.
  - destruct (run_steps_total sizes patchify rand forward_backward save_checkpoint cfg
                (schedule start_epoch dl) st0 Hall Hd Hi Hs) as [Hlen [st' Hok]].
    exists st'. split; [done|].
    pose proof Hok as Hfin. apply run_steps_final in Hfin.
    rewrite Hfin, Hlen, schedule_length. done.
Qed.

(** X6.  The loss windows belong to the process: at the end of a run,
    fresh or resumed, each of the two windows holds as many values as the
    run completed steps, capped at 100, whatever the value of the global
    step counter. *)
Theorem windows_count_steps_of_the_process (cfg : Config) (resume : bool)
    (dl : list Batch) (m : Model) (o : Optimizer) (sc : Scheduler)
    (g : Rng) (sto : Store) (st' : State) :
  (training cfg resume dl m o sc g sto).2 = Ok st' ->
  length (text_loss_window st')
  = Nat.min (length (training cfg resume dl m o sc g sto).1) 100
  /\ length (diffusion_loss_window st')
     = Nat.min (length (training cfg resume dl m o sc g sto).1) 100.
Proof.
  unfold train.
  destruct (start resume m o sc g sto) as [[e st0]|] eqn:Hstart; [|discriminate].
  intros Hr. destruct (startup_windows _ _ _ _ _ _ _ _ Hstart) as [Ht Hd].
  destruct (run_steps_windows cfg (schedule e dl) st0 st' Hr) as [H1 H2].
  - rewrite Ht. simpl. lia.
  - rewrite Hd. simpl. lia.
  - rewrite H1, H2, Ht, Hd. done.
Qed.

(** X7.  In every step of a run the counter, the epoch and the batch
    index are tied together: the counter is the start value plus the
    number of batches of the epochs completed since the loops were
    entered plus the index of the batch inside its epoch.  The epoch lies
    in [start_epoch .. 9] and the batch index in [1 .. len(dataloader)]. *)
Theorem counter_from_epoch_and_batch (cfg : Config) (resume : bool)
    (dl : list Batch) (m : Model) (o : Optimizer) (sc : Scheduler)
    (g : Rng) (sto : Store) (start_epoch : nat) (st0 : State)
    (n : nat) (l : StepLog) :
  start resume m o sc g sto = Ok (start_epoch, st0) ->
  (training cfg resume dl m o sc g sto).1 !! n = Some l ->
  ev_step l
  = step_counter st0
    + Z.of_nat ((ev_epoch l - start_epoch) * length dl + ev_batch l)
  /\ (start_epoch <= ev_epoch l < 10)%nat
  /\ (1 <= ev_batch l <= length dl)%nat.
Proof.
  intros Hstart. unfold train. rewrite Hstart. intros Hl.
  apply run_steps_lookup in Hl
    as (epoch & i & batch & st_n & st1 & Hit & Hc & _ & Hstep).
  apply schedule_lookup in Hit as (-> & -> & Hb & Hlt).
  apply train_step_inv in Hstep as (_ & -> & -> & -> & _).
  apply lookup_lt_Some in Hb. unfold num_epochs in Hlt.
  pose proof (Nat.div_mod_eq n (length dl)).
  split; [|lia]. rewrite Hc. nia.
Qed.

End MoreLoop.

(** Step 20 under the default cadences is a debug step. *)
Lemma diagnostics_use_fixed_timestep_step20 :
  ev_debug Demo.log20 || ev_inference Demo.log20 = true
  /\ ev_times Demo.log20 = replicate 2 timestep
  /\ exists loss text diffusion,
       Demo.forward_backward (model Demo.state19) (optimizer Demo.state19)
         (scheduler Demo.state19) (Demo.prepared 0).1 (ev_times Demo.log20)
       = ((model Demo.state20, optimizer Demo.state20, scheduler Demo.state20),
          (loss, text, diffusion)).
Proof.
  assert (Demo.step_from default_config 0 20 0 Demo.state19
          = Ok (Demo.state20, Demo.log20)) as Hstep
    by (vm_compute; reflexivity).
  assert (prepare Demo.sizes Demo.patchify (Demo.batch 0)
          = Ok ((Demo.prepared 0).1, 2%nat)) as Hprep
    by (vm_compute; reflexivity).
  destruct (diagnostics_use_fixed_timestep Demo.sizes Demo.patchify Demo.rand
              Demo.forward_backward
              (CheckpointManager.save_checkpoint nat nat nat)
              default_config 0 20 (Demo.batch 0) Demo.state19
              Demo.state20 Demo.log20 (Demo.prepared 0).1 2%nat
              Hstep Hprep) as (Hfixed & _ & Hcall).
  assert (ev_debug Demo.log20 || ev_inference Demo.log20 = true) as Hfires
    by (vm_compute; reflexivity).
  split; [exact Hfires|]. split; [exact (Hfixed Hfires) | exact Hcall].
Defined.

(** Twenty steps with a save cadence of 200 leave the store empty. *)
Lemma store_untouched_without_save_demo :
  store (DemoRuns.run_demo_state default_config) = store Demo.state0.
Proof.
  apply (store_untouched_without_save Demo.sizes Demo.patchify Demo.rand Demo.forward_backward
           (CheckpointManager.save_checkpoint nat nat nat)
           default_config (schedule 0 Demo.dataloader) Demo.state0
           (DemoRuns.run_demo_state default_config)).
  - vm_compute. reflexivity.
  - vm_compute. repeat constructor.
Defined.

(** A fresh run over two batches: twenty steps, (0,1), (0,2), (1,1), ... *)
Lemma full_run_visits_every_batch_demo :
  (fun l => (ev_epoch l, ev_batch l))
    <$> (DemoRuns.train_demo default_config false Demo.empty_store).1
  = flat_map (fun e => (fun i => (e, i)) <$> seq 1 (length Demo.dataloader))
      (seq 0 (10 - 0))
  /\ exists st',
       (DemoRuns.train_demo default_config false Demo.empty_store).2 = Ok st'
       /\ step_counter st'
          = step_counter Demo.state0
            + Z.of_nat ((10 - 0) * length Demo.dataloader).
Proof.
  apply (full_run_visits_every_batch Demo.sizes Demo.patchify Demo.rand Demo.forward_backward
           (CheckpointManager.save_checkpoint nat nat nat)
           (CheckpointManager.resume_checkpoint nat nat nat)
           default_config false Demo.dataloader 0%nat 0%nat 0%nat 0%nat
           Demo.empty_store 0%nat Demo.state0).
  - reflexivity.
  - repeat (apply Forall_cons; split; [eexists; vm_compute; reflexivity|]).
    apply Forall_nil_2.
  - vm_compute. discriminate.
  - vm_compute. discriminate.
  - vm_compute. discriminate.
Defined.

(** A run resumed at counter 350 ends with 16 values in each window. *)
Lemma windows_count_steps_of_the_process_demo :
  length (text_loss_window
            (DemoRuns.trained_state default_config true Demo.store350))
  = Nat.min (length (DemoRuns.train_demo default_config true Demo.store350).1) 100
  /\ length (diffusion_loss_window
               (DemoRuns.trained_state default_config true Demo.store350))
     = Nat.min (length (DemoRuns.train_demo default_config true Demo.store350).1) 100.
Proof.
  apply (windows_count_steps_of_the_process Demo.sizes Demo.patchify Demo.rand
           Demo.forward_backward
           (CheckpointManager.save_checkpoint nat nat nat)
           (CheckpointManager.resume_checkpoint nat nat nat)
           default_config true Demo.dataloader 0%nat 0%nat 0%nat 0%nat
           Demo.store350).
  vm_compute. reflexivity.
Defined.

(** The third step of a run resumed at epoch 2 with the counter at 350. *)
Lemma counter_from_epoch_and_batch_demo :
  ev_step (DemoRuns.log_at default_config true Demo.store350 2)
  = 350
    + Z.of_nat ((ev_epoch (DemoRuns.log_at default_config true Demo.store350 2) - 2)
                * length Demo.dataloader
                + ev_batch (DemoRuns.log_at default_config true Demo.store350 2))
  /\ (2 <= ev_epoch (DemoRuns.log_at default_config true Demo.store350 2) < 10)%nat
  /\ (1 <= ev_batch (DemoRuns.log_at default_config true Demo.store350 2)
       <= length Demo.dataloader)%nat.
Proof.
  apply (counter_from_epoch_and_batch Demo.sizes Demo.patchify Demo.rand Demo.forward_backward
           (CheckpointManager.save_checkpoint nat nat nat)
           (CheckpointManager.resume_checkpoint nat nat nat)
           default_config true Demo.dataloader 0%nat 0%nat 0%nat 0%nat
           Demo.store350 2%nat
           (mkTrainState 350%nat 350%nat 350%nat 0%nat 350 [] [] Demo.store350)
           2%nat).
  - reflexivity.
  - vm_compute. reflexivity.
Defined.

End TrainingLoopMore.

(** * Further properties of the latent cache *)

Module LatentCacheMore.
Import LatentCache LatentCacheFacts FileNames.
Local Open Scope nat_scope.

Lemma pretty_N_char_no_underscore (x : N) : pretty_N_char x <> "_"%char.
Proof. unfold pretty_N_char. by repeat case_match. Qed.

Lemma pretty_N_go_underscore_free (x : N) (s : string) :
  underscore_free s -> underscore_free (pretty_N_go x s).
Proof.
  revert s. induction (N.lt_wf_0 x) as [x _ IH]; intros s Hs.
  destruct (decide (x = 0)%N) as [->|Hx].
  - by rewrite pretty_N_go_0.
  - rewrite pretty_N_go_step by lia. apply IH.
    + apply N.div_lt; lia.
    + split; [apply pretty_N_char_no_underscore | done].
Qed.

Lemma pretty_N_underscore_free (x : N) : underscore_free (pretty x).
Proof.
  unfold pretty, pretty_N. case_decide.
  - simpl. split; [discriminate | done].
  - by apply pretty_N_go_underscore_free.
Qed.

Lemma pretty_Z_underscore_free (x : Z) : underscore_free (pretty x).
Proof.
  destruct x as [|x|x]; unfold pretty, pretty_Z.
  - simpl. split; [discriminate | done].
  - apply pretty_N_underscore_free.
  - change ("-" +:+ pretty x) with (String "-" (pretty x)).
    split; [discriminate | apply pretty_N_underscore_free].
Qed.

Lemma split_at_underscore (s1 s2 t1 t2 : string) :
  underscore_free s1 -> underscore_free s2 ->
  s1 +:+ "_" +:+ t1 = s2 +:+ "_" +:+ t2 -> s1 = s2 /\ t1 = t2.
Proof.
  revert s2. induction s1 as [|a s1 IH]; intros [|b s2] H1 H2 Heq.
  - change (String "_" t1 = String "_" t2) in Heq. by injection Heq as ->.
  - change (String "_" t1 = String b (s2 +:+ "_" +:+ t2)) in Heq.
    injection Heq as <- _. by destruct H2.
  - change (String a (s1 +:+ "_" +:+ t1) = String "_" t2) in Heq.
    injection Heq as -> _. by destruct H1.
  - change (String a (s1 +:+ "_" +:+ t1) = String b (s2 +:+ "_" +:+ t2)) in Heq.
    injection Heq as -> Heq. destruct H1 as [_ H1], H2 as [_ H2].
    destruct (IH s2 H1 H2 Heq) as [-> ->]. done.
Qed.

Lemma cache_file_inj2 (bs bs' : Z) (i j : nat) :
  cache_file bs i = cache_file bs' j -> bs = bs' /\ i = j.
Proof.
  unfold cache_file. intros Heq. apply (inj (String.app _)) in Heq.
  apply split_at_underscore in Heq as [Hbs Hrest];
    [|apply pretty_Z_underscore_free..].
  apply (inj pretty) in Hbs. split; [done|].
  apply string_app_inj_r in Hrest. by apply (inj pretty) in Hrest.
Qed.

(** X9.  Shard file names identify the batch size and the batch index:
    two different (batch size, index) pairs never share a file name, so
    shards of one configuration never overwrite those of another. *)
Theorem shard_names_are_distinct (bs bs' : Z) (i j : nat) :
  (bs, i) <> (bs', j) -> cache_file bs i <> cache_file bs' j.
Proof.
  intros Hne Heq. apply cache_file_inj2 in Heq as [-> ->]. done.
Qed.

Lemma shard_names_are_distinct_demo : cache_file 4 0 <> cache_file 2 0.
Proof.
  apply (shard_names_are_distinct 4 2 0 0). intros Heq. discriminate Heq.
Defined.

Section MoreBuild.
Context {Value : Type} (vae_encode_batch : Value -> Value).

Abbreviation BatchDict := (gmap string Value).
Abbreviation Directory := (gmap string (gmap string Value)).
Abbreviation encode := (encode_batch Value vae_encode_batch).
Abbreviation building := (build Value vae_encode_batch).

Lemma encode_batch_content (batch shard : BatchDict) :
  encode batch = Ok shard ->
  exists pixel_values,
    batch !! "pixel_values" = Some pixel_values
    /\ shard !! "pixel_values" = None
    /\ shard !! "image_latents" = Some (vae_encode_batch pixel_values)
    /\ forall key, key <> "pixel_values" -> key <> "image_latents" ->
         shard !! key = batch !! key.
Proof.
  unfold encode_batch.
  destruct (batch !! "pixel_values") as [px|] eqn:E; [|discriminate].
  intros [= <-]. exists px. split; [done|]. split; [apply lookup_delete_eq|].
  split.
  - rewrite lookup_delete_ne by discriminate. apply lookup_insert_eq.
  - intros key H1 H2. rewrite lookup_delete_ne by done.
    by rewrite lookup_insert_ne.
Qed.

Lemma cache_batches_Ok_inv (batch_size : Z) (loader : list BatchDict) :
  forall (i : nat) (dir : Directory) (n : nat) r,
  cache_batches Value vae_encode_batch batch_size i loader dir n = Ok r ->
  Forall (fun batch : BatchDict => is_Some (batch !! "pixel_values")) loader.
Proof.
  induction loader as [|batch loader IH]; intros i dir n r; simpl; [done|].
  unfold encode_batch at 1.
  destruct (batch !! "pixel_values") as [px|] eqn:E; cbn [rbind]; [|discriminate].
  intros Hr. apply IH in Hr. apply Forall_cons. split; [by eexists | done].
Qed.

Lemma cache_batches_Err (batch_size : Z) (loader : list BatchDict) :
  Exists (fun batch : BatchDict => batch !! "pixel_values" = None) loader ->
  forall (i : nat) (dir : Directory) (n : nat),
  cache_batches Value vae_encode_batch batch_size i loader dir n
  = Err (KeyError "pixel_values").
Proof.
  induction loader as [|batch loader IH]; intros Hex i dir n.
  - by apply Exists_nil in Hex.
  - simpl. unfold encode_batch at 1.
    destruct (batch !! "pixel_values") as [px|] eqn:E; cbn [rbind]; [|done].
    apply Exists_cons in Hex as [Hhere|Hlater]; [congruence|].
    by apply IH.
Qed.

Lemma rebuild_guard (force : bool) (st : CacheState Value) :
  force = true \/ cache_dir Value st = None \/ cache_dir Value st = Some ∅ ->
  force || negb (path_exists Value (makedirs Value (cache_dir Value st)))
  || (length (listdir Value (makedirs Value (cache_dir Value st))) =? 0) = true.
Proof.
  rewrite length_listdir.
  intros [-> | [-> | ->]]; [done| |]; cbn; rewrite map_size_empty;
    by destruct force.
Qed.

(** X10.  When a rebuild is triggered and some batch of the dataset has
    no ["pixel_values"] entry, the build raises KeyError. *)
Theorem build_raises_on_missing_pixels (force : bool) (batch_size : Z)
    (loader : list BatchDict) (st : CacheState Value) :
  force = true \/ cache_dir Value st = None \/ cache_dir Value st = Some ∅ ->
  Exists (fun batch : BatchDict => batch !! "pixel_values" = None) loader ->
  building force batch_size loader st = Err (KeyError "pixel_values").
Proof.
  intros Hforce Hex. unfold build. rewrite (rebuild_guard force st Hforce).
  by rewrite cache_batches_Err.
Qed.

(** X11.  After a rebuild the shard of batch [k] holds what the batch
    held, except that the raw ["pixel_values"] are gone and
    ["image_latents"] holds their encoding. *)
Theorem shards_hold_latents_not_pixels (force : bool) (batch_size : Z)
    (loader : list BatchDict) (st st' : CacheState Value) :
  force = true \/ cache_dir Value st = None \/ cache_dir Value st = Some ∅ ->
  building force batch_size loader st = Ok st' ->
  forall k batch, loader !! k = Some batch ->
    exists pixel_values shard,
      batch !! "pixel_values" = Some pixel_values
      /\ default ∅ (cache_dir Value st') !! cache_file batch_size k = Some shard
      /\ shard !! "pixel_values" = None
      /\ shard !! "image_latents" = Some (vae_encode_batch pixel_values)
      /\ forall key, key <> "pixel_values" -> key <> "image_latents" ->
           shard !! key = batch !! key.
Proof.
  intros Hforce. unfold build. rewrite (rebuild_guard force st Hforce).
  destruct (cache_batches _ _ _ _ _ _ _) as [r|] eqn:E; cbn [rbind]; [|discriminate].
  intros [= <-] k batch Hb. cbn [cache_dir default from_option id].
  pose proof (cache_batches_Ok_inv _ _ _ _ _ _ E) as Hpx.
  destruct (cache_batches_spec vae_encode_batch batch_size loader Hpx 0
              (default ∅ (makedirs Value (cache_dir Value st))) (encodes Value st))
    as (dir' & Hr & Hfiles & _).
  rewrite E in Hr. injection Hr as ->.
  destruct (Hfiles k batch Hb) as (shard & Henc & Hl).
  destruct (encode_batch_content batch shard Henc) as (px & ? & ? & ? & ?).
  exists px, shard. done.
Qed.

(** X12.  A build never removes or changes a file that is not a shard of
    the batches it writes: files of another batch size, and shards of the
    same batch size whose index is beyond the dataset, keep their
    content, also under [--cache]. *)
Theorem build_keeps_other_files (force : bool) (batch_size : Z)
    (loader : list BatchDict) (st st' : CacheState Value) :
  building force batch_size loader st = Ok st' ->
  (forall f, (forall k, k < length loader -> f <> cache_file batch_size k) ->
     default ∅ (cache_dir Value st') !! f = default ∅ (cache_dir Value st) !! f)
  /\ (forall bs' j, bs' <> batch_size \/ length loader <= j ->
       default ∅ (cache_dir Value st') !! cache_file bs' j
       = default ∅ (cache_dir Value st) !! cache_file bs' j).
Proof.
  intros Hb.
  assert (forall f, (forall k, k < length loader -> f <> cache_file batch_size k) ->
     default ∅ (cache_dir Value st') !! f = default ∅ (cache_dir Value st) !! f)
    as Hkeep.
  { intros f Hf. unfold build in Hb.
    destruct (_ || _ || _).
    - destruct (cache_batches _ _ _ _ _ _ _) as [r|] eqn:E; cbn [rbind] in Hb;
        [|discriminate].
      injection Hb as <-. cbn [cache_dir default from_option id].
      pose proof (cache_batches_Ok_inv _ _ _ _ _ _ E) as Hpx.
      destruct (cache_batches_spec vae_encode_batch batch_size loader Hpx 0
                  (default ∅ (makedirs Value (cache_dir Value st)))
                  (encodes Value st)) as (dir' & Hr & _ & Hother).
      rewrite E in Hr. injection Hr as ->. cbn [fst]. by rewrite Hother.
    - by injection Hb as <-. }
  split; [done|].
  intros bs' j Hj. apply Hkeep. intros k Hk Heq.
  apply cache_file_inj2 in Heq as [-> ->]. lia.
Qed.

(** X13.  Building is idempotent in general: whatever the first
    invocation did (skip, fill an empty directory, forced rebuild), a
    following invocation without [--cache] on the same dataset encodes
    nothing and returns the state unchanged. *)
Theorem build_then_build_is_build (force : bool) (batch_size : Z)
    (loader : list BatchDict) (st st1 : CacheState Value) :
  building force batch_size loader st = Ok st1 ->
  building false batch_size loader st1 = Ok st1.
Proof.
  intros Hb.
  assert (exists d1 n1, st1 = mkCacheState Value (Some d1) n1
            /\ (d1 = ∅ -> loader = [])) as (d1 & n1 & -> & Hempty).
  { unfold build in Hb.
    destruct (_ || _ || _) eqn:Hguard.
    - destruct (cache_batches _ _ _ _ _ _ _) as [r|] eqn:E; cbn [rbind] in Hb;
        [|discriminate].
      injection Hb as <-. exists r.1, r.2. split; [done|].
      intros Hr. destruct loader as [|batch loader]; [done|]. exfalso.
      pose proof (cache_batches_Ok_inv _ _ _ _ _ _ E) as Hpx.
      destruct (cache_batches_spec vae_encode_batch batch_size _ Hpx 0
                  (default ∅ (makedirs Value (cache_dir Value st)))
                  (encodes Value st)) as (dir' & Hr' & Hfiles & _).
      rewrite E in Hr'. injection Hr' as ->. cbn [fst] in Hr. subst dir'.
      destruct (Hfiles 0 batch eq_refl) as (shard & _ & Hl).
      by rewrite lookup_empty in Hl.
    - injection Hb as <-. eexists _, _. split; [reflexivity|].
      intros Hd. rewrite length_listdir in Hguard.
      change (default ∅ (makedirs Value (cache_dir Value st)))
        with (default ∅ (cache_dir Value st)) in Hguard.
      rewrite Hd, map_size_empty in Hguard. by destruct force. }
  destruct (decide (d1 = ∅)) as [Hd|Hd].
  - rewrite (Hempty Hd). subst d1. unfold build. rewrite length_listdir.
    cbn. by rewrite map_size_empty.
  - by apply (build_skip vae_encode_batch batch_size loader _ d1).
Qed.

End MoreBuild.

(** The second demo batch has no pixels. *)
Lemma build_raises_on_missing_pixels_demo :
  build nat demo_encode false 4 CacheDemo.broken_loader CacheDemo.empty_cache
  = Err (KeyError "pixel_values").
Proof.
  apply (build_raises_on_missing_pixels demo_encode false 4
           CacheDemo.broken_loader CacheDemo.empty_cache).
  - right. left. reflexivity.
  - apply Exists_cons_tl, Exists_cons_hd. reflexivity.
Defined.

(** The second shard of the demo dataset, built into an absent directory. *)
Lemma shards_hold_latents_not_pixels_demo :
  exists pixel_values shard,
    demo_batch 1 !! "pixel_values" = Some pixel_values
    /\ default ∅ (cache_dir nat (CacheDemo.built false demo_loader
                                   CacheDemo.empty_cache))
         !! cache_file 4 1 = Some shard
    /\ shard !! "pixel_values" = None
    /\ shard !! "image_latents" = Some (demo_encode pixel_values)
    /\ forall key, key <> "pixel_values" -> key <> "image_latents" ->
         shard !! key = demo_batch 1 !! key.
Proof.
  apply (shards_hold_latents_not_pixels demo_encode false 4 demo_loader
           CacheDemo.empty_cache
           (CacheDemo.built false demo_loader CacheDemo.empty_cache)).
  - right. left. reflexivity.
  - vm_compute. reflexivity.
  - reflexivity.
Defined.

(** A forced rebuild of the two demo shards leaves the stale files alone. *)
Lemma build_keeps_other_files_demo :
  (forall f, (forall k, k < length demo_loader -> f <> cache_file 4 k) ->
     default ∅ (cache_dir nat (CacheDemo.built true demo_loader
                                 CacheDemo.stale_cache)) !! f
     = default ∅ (cache_dir nat CacheDemo.stale_cache) !! f)
  /\ (forall bs' j, bs' <> 4%Z \/ length demo_loader <= j ->
       default ∅ (cache_dir nat (CacheDemo.built true demo_loader
                                   CacheDemo.stale_cache)) !! cache_file bs' j
       = default ∅ (cache_dir nat CacheDemo.stale_cache) !! cache_file bs' j).
Proof.
  apply (build_keeps_other_files demo_encode true 4 demo_loader
           CacheDemo.stale_cache
           (CacheDemo.built true demo_loader CacheDemo.stale_cache)).
  vm_compute. reflexivity.
Defined.

(** Filling an absent directory, then building again. *)
Lemma build_then_build_is_build_demo :
  build nat demo_encode false 4 demo_loader
    (CacheDemo.built false demo_loader CacheDemo.empty_cache)
  = Ok (CacheDemo.built false demo_loader CacheDemo.empty_cache).
Proof.
  apply (build_then_build_is_build demo_encode false 4 demo_loader
           CacheDemo.empty_cache).
  vm_compute. reflexivity.
Defined.

End LatentCacheMore.

(** * The patch codec as the loop uses it *)

Module StepShapesFacts.
Import PatchCodec PatchCodecFacts StepShapes.
Local Open Scope nat_scope.

Lemma codec_round_trip {A} (x : Tensor A) (B C H W p : nat) :
  shape x = [B; C; H; W] ->
  length (data x) = numel [B; C; H; W] ->
  0 < p -> H mod p = 0 -> W mod p = 0 ->
  exists y,
    patchify x p = Ok y
    /\ shape y = [B; H / p * (W / p); C * p * p]
    /\ unpatchify y p B C H W = Ok x.
Proof.
  intros Hshape Hlen Hp HH HW. unfold patchify. rewrite Hshape.
  rewrite (proj2 (Nat.ltb_lt _ _) Hp), (proj2 (Nat.eqb_eq _ _) HH),
    (proj2 (Nat.eqb_eq _ _) HW), (proj2 (Nat.eqb_eq _ _) Hlen).
  cbn [andb].
  destruct (gather_seq (data x) (patch_source B C H W p)
              (numel [B; H / p * (W / p); C * p * p])) as (d1 & -> & Hl1 & Hd1).
  { intros k Hk. rewrite Hlen. by apply patch_source_lt. }
  cbn [rbind]. eexists. split; [reflexivity|]. split; [reflexivity|].
  unfold unpatchify. cbn [shape data].
  rewrite (proj2 (Nat.ltb_lt _ _) Hp), (proj2 (Nat.eqb_eq _ _) HH),
    (proj2 (Nat.eqb_eq _ _) HW), !Nat.eqb_refl, (proj2 (Nat.eqb_eq _ _) Hl1).
  cbn [andb].
  destruct (gather_seq d1 (image_source B C H W p) (numel [B; C; H; W]))
    as (d2 & -> & Hl2 & Hd2).
  { intros m Hm. rewrite Hl1. by apply image_source_lt. }
  cbn [rbind]. f_equal. destruct x as [sh dx]. cbn [shape data] in *.
  subst sh. f_equal. apply list_eq. intros m.
  destruct (decide (m < numel [B; C; H; W])) as [Hm|Hm].
  - rewrite Hd2 by done. rewrite Hd1 by (by apply image_source_lt).
    by rewrite patch_image_source.
  - rewrite !(proj2 (lookup_ge_None _ _)) by lia. done.
Qed.

(** X14.  With [image_size // 8] divisible by the patch size, the
    latents of a step, of shape [(bsz, 4, image_size//8, image_size//8)],
    are patchified into [image_seq_len * image_seq_len] rows of width
    [dim_latent], the width the model was built for, and the closure
    [unpatchify2] handed to the debug renderer maps them back to the
    latents ([patchify] and [unpatchify] as modelled from the spec). *)
Theorem step_patches_match_model (A : Type) (x : Tensor A)
    (bsz image_size patch_size : nat) :
  shape x = latent_shape bsz image_size ->
  length (data x) = numel (shape x) ->
  0 < patch_size -> (image_size / 8) mod patch_size = 0 ->
  exists y,
    patchify x patch_size = Ok y
    /\ shape y = [bsz;
                  image_seq_len image_size patch_size
                  * image_seq_len image_size patch_size;
                  dim_latent patch_size]
    /\ unpatchify2 patch_size bsz image_size y = Ok x.
Proof.
  intros Hshape Hlen Hp Hdiv. rewrite Hshape in Hlen.
  destruct (codec_round_trip x bsz 4 (image_size / 8) (image_size / 8)
              patch_size Hshape Hlen Hp Hdiv Hdiv) as (y & Hy & Hs & Hu).
  exists y. split; [done|]. split; [|done].
  rewrite Hs. unfold image_seq_len, dim_latent.
  rewrite Nat.Div0.div_div, (Nat.mul_comm 8). done.
Qed.

(** The defaults: image size 256, patch size 2, one sample. *)
Lemma step_patches_match_model_defaults :
  exists y,
    patchify sample_latent 2 = Ok y
    /\ shape y = [1; image_seq_len 256 2 * image_seq_len 256 2; dim_latent 2]
    /\ unpatchify2 2 1 256 y = Ok sample_latent.
Proof.
  apply (step_patches_match_model nat sample_latent 1 256 2);
    [reflexivity | vm_compute; reflexivity | lia | reflexivity].
Defined.

End StepShapesFacts.

(** * Further properties of restarting with [--resume] *)

Module ResumptionMore.
Import PatchCodec TrainingLoop TrainingLoopFacts Resumption.

Section MoreRestart.
Context {Model Optimizer Scheduler Scalar Rng : Type}.
Context (sizes : Sizes).
Context (patchify : Tensor Scalar -> Z -> result (Tensor Scalar)).
Context (rand : Rng -> nat -> list Q * Rng).
Context (forward_backward :
  Model -> Optimizer -> Scheduler ->
  list (Tensor Scalar * Tensor Scalar) -> list Q ->
  (Model * Optimizer * Scheduler) * (Q * LossTracker.float * LossTracker.float)).

Abbreviation Batch := (gmap string (Tensor Scalar)).

Abbreviation Store := (CheckpointManager.Store Model Optimizer Scheduler).
Abbreviation State := (TrainState Model Optimizer Scheduler Rng Store).
Abbreviation save := (CheckpointManager.save_checkpoint Model Optimizer Scheduler).
Abbreviation restore := (CheckpointManager.resume_checkpoint Model Optimizer Scheduler).
Abbreviation run := (run_steps sizes patchify rand forward_backward save).

Lemma run_steps_no_log (cfg : Config) (its : list (nat * nat * Batch))
    (st st' : State) :
  (run cfg its st).2 = Ok st' -> (run cfg its st).1 = [] -> st' = st.
Proof.
  destruct its as [|[[epoch i] batch] its]; simpl.
  - by intros [= <-].
  - destruct (train_step _ _ _ _ _ _ _ _ _ _) as [[st1 log]|]; simpl;
      [discriminate | discriminate].
Qed.

(** When the last completed step of a run wrote a checkpoint, the store
    at the end of the run has that checkpoint on top. *)
Lemma run_steps_last_save (cfg : Config) (its : list (nat * nat * Batch))
    (st st' : State) (l : StepLog) :
  (run cfg its st).2 = Ok st' ->
  last (run cfg its st).1 = Some l ->
  ev_save l = true ->
  exists loss before,
    store st' = save (model st') (optimizer st') (scheduler st') loss
                  (ev_epoch l) (step_counter st') before.
Proof.
  revert st. induction its as [|[[epoch i] batch] its IH]; intros st; simpl.
  - discriminate.
  - destruct (train_step _ _ _ _ _ _ epoch i batch st) as [[st1 log]|] eqn:E;
      simpl; [|discriminate].
    intros Hr Hlast Hsave. rewrite last_cons in Hlast.
    destruct (last (run cfg its st1).1) as [l'|] eqn:El.
    + injection Hlast as ->. by apply (IH st1).
    + injection Hlast as ->. apply last_None in El.
      rewrite (run_steps_no_log _ _ _ _ Hr El).
      apply train_step_inv in E as (_ & He & _ & _ & _ & _ & _ & _ & _ & Hst).
      destruct (Hst Hsave) as [loss Hstore]. rewrite He. by exists loss, (store st).
Qed.

(** X15.  A process killed right after a step that wrote a checkpoint,
    then started again with [--resume] on the checkpoint manager as the
    spec describes it (no cadence being zero, and the input of every
    batch of the dataloader preparable): the second process runs every batch of the epochs from the saved one to
    epoch 9, so it starts with batch 1 of the saved epoch at the saved
    counter plus one, and the two processes together perform as many
    steps more than the [10 * len(dataloader)] of an uninterrupted run as
    the saved epoch had completed batches. *)
Theorem restart_reruns_the_saved_epoch (cfg : Config) (dl : list Batch)
    (m : Model) (o : Optimizer) (sc : Scheduler) (g : Rng) (sto : Store)
    (k : nat) (l : StepLog) :
  Forall (fun batch => is_Ok (prepare sizes patchify batch)) dl ->
  N_debug cfg <> 0 -> N_inference cfg <> 0 -> N_save cfg <> 0 ->
  last (run_killed sizes patchify rand forward_backward k cfg false dl m o sc g sto).1
    = Some l ->
  ev_save l = true ->
  (ev_epoch l < 10)%nat
  /\ length (restart_after sizes patchify rand forward_backward k cfg dl m o sc g sto).1
     = ((10 - ev_epoch l) * length dl)%nat
  /\ (length (run_killed sizes patchify rand forward_backward k cfg false dl m o sc g sto).1
      + length (restart_after sizes patchify rand forward_backward k cfg dl m o sc g sto).1
      = 10 * length dl + ev_batch l)%nat
  /\ (forall l',
       (restart_after sizes patchify rand forward_backward k cfg dl m o sc g sto).1 !! 0%nat
       = Some l' ->
       ev_epoch l' = ev_epoch l /\ ev_batch l' = 1%nat
       /\ ev_step l' = ev_step l + 1).
Proof.
  intros Hprep Hd Hi Hs. unfold restart_after, run_killed, train_killed.
  change (startup restore false m o sc g sto)
    with (Ok (0%nat, mkTrainState m o sc g 0 [] [] sto) : result (nat * State)).
  cbn iota beta.
  set (st0 := mkTrainState m o sc g 0 [] [] sto).
  set (its := take k (schedule 0 dl)).
  assert (forall e, Forall (fun it : nat * nat * Batch =>
                              is_Ok (prepare sizes patchify it.2))
                      (schedule e dl)) as Hall.
  { intros e.
    exact (schedule_Forall (fun b => is_Ok (prepare sizes patchify b)) dl e Hprep). }
  assert (Forall (fun it : nat * nat * Batch =>
                    is_Ok (prepare sizes patchify it.2)) its) as Hits
    by (apply Forall_take, Hall).
  destruct (run_steps_total sizes patchify rand forward_backward save cfg its st0
              Hits Hd Hi Hs)
    as [Hlen [st' Hok]].
  rewrite Hok. intros Hlast Hsave.
  destruct (run_steps_last_save cfg its st0 st' l Hok Hlast Hsave)
    as (loss & before & Hstore).
  assert (startup restore true m o sc g (store st')
          = Ok (ev_epoch l,
                mkTrainState (model st') (optimizer st') (scheduler st') g
                  (step_counter st') [] [] (store st'))) as Hstart.
  { unfold startup. rewrite Hstore at 1. reflexivity. }
  pose proof Hok as Hfinal. apply run_steps_final in Hfinal.
  rewrite last_lookup in Hlast.
  assert ((run cfg its st0).1 <> []) as Hne by (intros Hnil; by rewrite Hnil in Hlast).
  assert (0 < length (run cfg its st0).1)%nat as Hpos
    by (destruct (run cfg its st0).1; [done | simpl; lia]).
  apply run_steps_lookup in Hlast
    as (epoch & i & batch & st_n & st1 & Hit & Hc & _ & Hstep).
  apply lookup_take_Some in Hit as [Hit _].
  apply schedule_lookup in Hit as (He & Hb & Hdl & Hlt).
  apply train_step_inv in Hstep as (_ & Hel & Hbl & Hsl & _).
  apply lookup_lt_Some in Hdl. unfold num_epochs in Hlt. subst epoch i.
  unfold run_train, train. rewrite Hstart.
  destruct (run_steps_total sizes patchify rand forward_backward save cfg
              (schedule (ev_epoch l) dl)
              (mkTrainState (model st') (optimizer st') (scheduler st') g
                 (step_counter st') [] [] (store st'))
              (Hall (ev_epoch l)) Hd Hi Hs)
    as [Hlen2 _].
  rewrite Hlen2, schedule_length. change num_epochs with 10%nat.
  pose proof (Nat.div_mod_eq (Nat.pred (length (run cfg its st0).1)) (length dl)).
  split; [lia|]. split; [done|]. split; [nia|].
  intros l' Hl'. apply run_steps_lookup in Hl'
    as (e' & i' & b' & st_n' & st1' & Hit' & Hc' & H0 & Hstep').
  apply schedule_lookup in Hit' as (-> & -> & _ & _).
  rewrite (H0 eq_refl) in Hstep'.
  apply train_step_inv in Hstep' as (_ & He' & Hb' & Hs' & _).
  cbn [step_counter] in Hs'.
  rewrite Nat.Div0.div_0_l in He'. rewrite Nat.Div0.mod_0_l in Hb'.
  split; [lia|]. split; [done|]. rewrite Hs', Hsl, Hc, Hfinal.
  change (step_counter st0) with 0. lia.
Qed.

End MoreRestart.

(** The two-batch demo with a checkpoint after every step, killed after
    its first step. *)
Lemma restart_reruns_the_saved_epoch_demo :
  (ev_epoch (Demo.log_after Demo.save_every_step 0 1 0 Demo.state0) < 10)%nat
  /\ length (restart_after Demo.sizes Demo.patchify Demo.rand Demo.forward_backward 1
              Demo.save_every_step Demo.dataloader 0%nat 0%nat 0%nat 0%nat
              Demo.empty_store).1
     = ((10 - ev_epoch (Demo.log_after Demo.save_every_step 0 1 0 Demo.state0))
        * length Demo.dataloader)%nat
  /\ (length (run_killed Demo.sizes Demo.patchify Demo.rand Demo.forward_backward 1
               Demo.save_every_step false Demo.dataloader
               0%nat 0%nat 0%nat 0%nat Demo.empty_store).1
      + length (restart_after Demo.sizes Demo.patchify Demo.rand Demo.forward_backward 1
                  Demo.save_every_step Demo.dataloader 0%nat 0%nat 0%nat 0%nat
                  Demo.empty_store).1
      = 10 * length Demo.dataloader
        + ev_batch (Demo.log_after Demo.save_every_step 0 1 0 Demo.state0))%nat
  /\ (forall l',
       (restart_after Demo.sizes Demo.patchify Demo.rand Demo.forward_backward 1
          Demo.save_every_step Demo.dataloader 0%nat 0%nat 0%nat 0%nat
          Demo.empty_store).1 !! 0%nat = Some l' ->
       ev_epoch l' = ev_epoch (Demo.log_after Demo.save_every_step 0 1 0 Demo.state0)
       /\ ev_batch l' = 1%nat
       /\ ev_step l'
          = ev_step (Demo.log_after Demo.save_every_step 0 1 0 Demo.state0) + 1).
Proof.
  apply (restart_reruns_the_saved_epoch Demo.sizes Demo.patchify Demo.rand Demo.forward_backward
           Demo.save_every_step Demo.dataloader 0%nat 0%nat 0%nat 0%nat
           Demo.empty_store 1).
  - repeat (apply Forall_cons; split; [eexists; vm_compute; reflexivity|]).
    apply Forall_nil_2.
  - vm_compute. discriminate.
  - vm_compute. discriminate.
  - vm_compute. discriminate.
  - vm_compute. reflexivity.
  - vm_compute. reflexivity.
Defined.

End ResumptionMore.
